(** * ReconX: the pipeline orchestrator of [reconx.py]

    A shallow embedding of [reconx.py] and the properties of its command
    executor, task pool, stage sequence, dependency bootstrap and report
    builder.

    Modelling decisions, all visible in the definitions below:
    - The operating system is a value [OS]: a table of directories, each a
      finite map from names to entries (a regular file with its bytes, or a
      sub-directory), and a wall clock.  Permissions, links and special
      files are left out: a regular file can be read and rewritten.
    - Pipes and files hold bytes; the program reads and writes them in text
      mode.  The encoding is UTF-8, the default of Python on a POSIX system:
      a text is held as its UTF-8 bytes, decoding is strict and turns every
      line ending into a line feed, encoding refuses what UTF-8 cannot
      express.
    - External commands are opaque: the shell is an oracle
      [sh : string -> OS -> Proc * OS] that the development never inspects.
    - Python code runs in the monad [M]: it threads a [State] (the [OS], the
      log of observable events and the tape of scheduling choices) and
      either returns a value or raises an exception.
    - A path such as [f"{OUTPUT}/{file}"] is the pair [(OUTPUT, file)].
    - The thread pool is driven by the tape: at each completion the tape
      picks which of the running tasks finishes next, then how many futures
      had finished when the loop over [as_completed] began and in which
      order these come out.  One call of [task] is one atomic step: the
      events of two tasks are not interleaved in the log. *)

From Stdlib Require Import ZArith Ascii String.
From stdpp Require Import gmap strings list sorting.

Local Open Scope string_scope.
Local Open Scope list_scope.

(** ** Results, exceptions and the program monad *)

(** A path: the directory and the name of the file in it. *)
Abbreviation path := (string * string)%type.

(** A task of the pool: the tuple [(name, cmd)] or [(name, cmd, outfile)]. *)
Abbreviation Task := (string * string * option path)%type.

Inductive exn : Type :=
| FileNotFoundError (p : path)
| FileExistsError (d : string)
| NotADirectoryError (p : path)
| IsADirectoryError (p : path)
| UnicodeDecodeError
| UnicodeEncodeError
| ValueError (msg : string).

Inductive Res (A : Type) : Type :=
| Ok (a : A)
| Raise (e : exn).
Arguments Ok {A} a.
Arguments Raise {A} e.

Definition is_ok {A} (r : Res A) : bool :=
  match r with Ok _ => true | Raise _ => false end.

(** ** Text and bytes *)

(** The state of a strict UTF-8 decoder between two bytes: at the start of
    a character, or inside one, with [more] bytes to come after the next
    one, which must lie in [[lo, hi)]. *)
Inductive utf8_state : Type :=
| U0
| Ucont (more lo hi : nat).

(** One byte.  Overlong forms, surrogates and code points beyond U+10FFFF
    are refused, as the codec of Python does. *)
Definition utf8_step (st : utf8_state) (n : nat) : option utf8_state :=
  match st with
  | U0 =>
      if (n <? 128)%nat then Some U0
      else if (n <? 194)%nat then None
      else if (n <? 224)%nat then Some (Ucont 0 128 192)
      else if (n =? 224)%nat then Some (Ucont 1 160 192)
      else if (n =? 237)%nat then Some (Ucont 1 128 160)
      else if (n <? 240)%nat then Some (Ucont 1 128 192)
      else if (n =? 240)%nat then Some (Ucont 2 144 192)
      else if (n <? 244)%nat then Some (Ucont 2 128 192)
      else if (n =? 244)%nat then Some (Ucont 2 128 144)
      else None
  | Ucont more lo hi =>
      if ((lo <=? n) && (n <? hi))%nat then
        Some (match more with 0 => U0 | S k => Ucont k 128 192 end)
      else None
  end.

Fixpoint utf8_run (st : utf8_state) (s : string) : option utf8_state :=
  match s with
  | "" => Some st
  | String a s' =>
      match utf8_step st (nat_of_ascii a) with
      | Some st' => utf8_run st' s'
      | None => None
      end
  end.

(** The bytes are the UTF-8 encoding of a text. *)
Definition utf8_valid (s : string) : bool :=
  match utf8_run U0 s with Some U0 => true | _ => false end.

Definition CR : ascii := ascii_of_nat 13.
Definition LF : ascii := ascii_of_nat 10.

(** Reading in text mode: a carriage return, with the line feed that may
    follow it, becomes one line feed. *)
Fixpoint newlines_from (after_cr : bool) (s : string) : string :=
  match s with
  | "" => ""
  | String a s' =>
      if Ascii.eqb a CR then String LF (newlines_from true s')
      else if Ascii.eqb a LF then
        (if after_cr then newlines_from false s' else String LF (newlines_from false s'))
      else String a (newlines_from false s')
  end.

Definition universal_newlines (s : string) : string := newlines_from false s.

(** What text mode makes of the bytes of a pipe or of a file, if they
    decode. *)
Definition decode_text (bytes : string) : option string :=
  if utf8_valid bytes then Some (universal_newlines bytes) else None.

(** The command line holds a NUL character. *)
Fixpoint has_nul (cmd : string) : bool :=
  match cmd with
  | "" => false
  | String a cmd' => Ascii.eqb a (ascii_of_nat 0) || has_nul cmd'
  end.

(** ** The operating system *)

(** What a finished subprocess leaves: its exit status and the bytes it
    wrote to its two streams. *)
Record Proc : Type := mkProc {
  returncode : Z;
  stdout_bytes : string;
  stderr : string
}.

(** [result.stdout] under [text=True]: the output as text.  (A process
    whose output does not decode is never handed to the program; see
    [subprocess_run].) *)
Definition stdout (p : Proc) : string :=
  default "" (decode_text (stdout_bytes p)).

(** An entry of a directory: a regular file with its bytes, or a
    sub-directory. *)
Inductive Node : Type :=
| File (bytes : string)
| Folder.

(** Directories by the name the program uses for them (["."] is the working
    directory); each maps the names of its entries to the entries.  [time]
    is the wall clock in hundredths of a second. *)
Record OS : Type := mkOS {
  fs : gmap string (gmap string Node);
  time : Z
}.

Inductive Event : Type :=
| EvPrint (msg : string)
| EvExec (cmd : string)      (* subprocess.run is called, output piped *)
| EvCall (cmd : string)      (* subprocess.call *)
| EvWrite (p : path).        (* a file opened with "w" is closed *)

Record State : Type := mkState {
  st_os : OS;
  st_log : list Event;
  st_tape : list nat
}.

Definition M (A : Type) : Type := State -> Res A * State.

Definition ret {A} (a : A) : M A := fun s => (Ok a, s).

Definition raise {A} (e : exn) : M A := fun s => (Raise e, s).

Definition bind {A B} (m : M A) (f : A -> M B) : M B :=
  fun s =>
    match m s with
    | (Ok a, s') => f a s'
    | (Raise e, s') => (Raise e, s')
    end.

Declare Scope prog_scope.
Delimit Scope prog_scope with prog.
Notation "x <- c1 ;; c2" := (bind c1 (fun x => c2))
  (at level 100, c1 at next level, right associativity) : prog_scope.
Notation "c1 ;; c2" := (bind c1 (fun _ => c2))
  (at level 100, right associativity) : prog_scope.
Local Open Scope prog_scope.

(** A future: the call runs, its exception (if any) is stored, not raised. *)
Definition attempt {A} (m : M A) : M (Res A) :=
  fun s => let '(r, s') := m s in (Ok r, s').

Definition set_os (o : OS) (s : State) : State :=
  mkState o (st_log s) (st_tape s).

Definition emit (e : Event) : M unit :=
  fun s => (Ok tt, mkState (st_os s) (st_log s ++ [e]) (st_tape s)).

Definition get_os : M OS := fun s => (Ok (st_os s), s).

Definition put_os (o : OS) : M unit := fun s => (Ok tt, set_os o s).

(** ** Constants of the module *)

Definition nl : string := String (ascii_of_nat 10) "".
Definition esc : string := String (ascii_of_nat 27) "".

Definition OUTPUT : string := "output".
Definition SCOPE : string := "scope.txt".

(* colorama *)
Definition Fore_MAGENTA : string := esc +:+ "[35m".
Definition Fore_YELLOW : string := esc +:+ "[33m".
Definition Fore_GREEN : string := esc +:+ "[32m".
Definition Style_RESET_ALL : string := esc +:+ "[0m".

(* The check mark of the "found" messages, as its three UTF-8 bytes. *)
Definition check_mark : string :=
  String (ascii_of_nat 226) (String (ascii_of_nat 156) (String (ascii_of_nat 148) "")).

Definition print (msg : string) : M unit := emit (EvPrint msg).

(** ** Files *)

Definition set_fs (f : gmap string (gmap string Node)) (o : OS) : OS :=
  mkOS f (time o).

(** The entries of the directory [d], if there is such a directory.  The
    working directory is always there; a sub-directory of it that the table
    knows by name only has no entries. *)
Definition dir_entries (d : string) (o : OS) : option (gmap string Node) :=
  match fs o !! d with
  | Some m => Some m
  | None =>
      if decide (d = ".") then Some ∅
      else match fs o !! "." ≫= (.!! d) with
           | Some Folder => Some ∅
           | _ => None
           end
  end.

(** What opening [p] raises when its directory is not there: a regular
    file may stand where the directory should be. *)
Definition no_dir_error (p : path) (o : OS) : exn :=
  match fs o !! "." ≫= (.!! p.1) with
  | Some (File _) => NotADirectoryError p
  | _ => FileNotFoundError p
  end.

(** [open(p, "w")]: the directory must exist and [p] must not name a
    sub-directory; the file is created or truncated. *)
Definition open_w (p : path) : M unit :=
  fun s =>
    match dir_entries p.1 (st_os s) with
    | None => (Raise (no_dir_error p (st_os s)), s)
    | Some d =>
        match d !! p.2 with
        | Some Folder => (Raise (IsADirectoryError p), s)
        | _ => (Ok tt, set_os (set_fs (<[p.1 := <[p.2 := File ""]> d]> (fs (st_os s)))
                                 (st_os s)) s)
        end
    end.

(** The text as the bytes a file opened in text mode receives: its
    encoding, when it has one (a line feed stays a line feed). *)
Definition encode (text : string) : M string :=
  if utf8_valid text then ret text else raise UnicodeEncodeError.

Definition bytes_of (x : option Node) : string :=
  match x with Some (File b) => b | _ => "" end.

(** What reaches the disk when a buffer of an open file is flushed: the
    bytes are appended to the file. *)
Definition flush_to (p : path) (data : string) (o : OS) : OS :=
  match fs o !! p.1 with
  | None => o
  | Some d => set_fs (<[p.1 := <[p.2 := File (bytes_of (d !! p.2) +:+ data)]> d]> (fs o)) o
  end.

(** [with open(p, "w") as f: f.write(data)]: the file is closed whether
    the write succeeds or raises. *)
Definition write_file (p : path) (data : string) : M unit :=
  open_w p ;;
  r <- attempt (bytes <- encode data ;;
                o <- get_os ;;
                put_os (flush_to p bytes o)) ;;
  emit (EvWrite p) ;;
  match r with
  | Ok _ => ret tt
  | Raise e => raise e
  end.

(** [open(p).read()] *)
Definition read_file (p : path) : M string :=
  fun s =>
    match dir_entries p.1 (st_os s) with
    | None => (Raise (no_dir_error p (st_os s)), s)
    | Some d =>
        match d !! p.2 with
        | None => (Raise (FileNotFoundError p), s)
        | Some Folder => (Raise (IsADirectoryError p), s)
        | Some (File bytes) =>
            match decode_text bytes with
            | Some text => (Ok text, s)
            | None => (Raise UnicodeDecodeError, s)
            end
        end
    end.

Definition time_time : M Z := fun s => (Ok (time (st_os s)), s).

Section ReconX.

(** The host shell: what a command prints and returns, and what it does to
    the system. *)
Variable sh : string -> OS -> Proc * OS.

(** ** Core command runner *)

(** [subprocess.run(cmd, shell=True, stdout=PIPE, stderr=DEVNULL,
    text=True)]: a command line with a NUL character is refused before
    anything runs; otherwise the command runs to its end, and its output
    must decode. *)
Definition subprocess_run (cmd : string) : M Proc :=
  emit (EvExec cmd) ;;
  if has_nul cmd then raise (ValueError "embedded null byte")
  else
    fun s =>
      let '(p, o) := sh cmd (st_os s) in
      match decode_text (stdout_bytes p) with
      | Some _ => (Ok p, set_os o s)
      | None => (Raise UnicodeDecodeError, set_os o s)
      end.

(** [subprocess.call(cmd, shell=True)]: nothing is captured.  Its commands
    come from [tools.yaml], which is taken to hold shell command lines. *)
Definition subprocess_call (cmd : string) : M Z :=
  fun s =>
    let '(p, o) := sh cmd (st_os s) in
    (Ok (returncode p), mkState o (st_log s ++ [EvCall cmd]) (st_tape s)).

Definition run (cmd : string) (outfile : option path) : M string :=
  result <- subprocess_run cmd ;;
  match outfile with
  | Some p => write_file p (stdout result)
  | None => ret tt
  end ;;
  ret (stdout result).

(** ** Tool and dependency checks *)

(** The parsed content of [tools.yaml].  [system_dependencies] may be
    absent ([data.get(..., [])]); a tool may omit its [check] command. *)
Record Dep : Type := mkDep {
  dep_name : string;
  dep_check : string;
  dep_install : string
}.

Record Tool : Type := mkTool {
  tool_name : string;
  tool_check : option string;
  tool_install : string
}.

Record ToolsYaml : Type := mkToolsYaml {
  system_dependencies : option (list Dep);
  tools : list Tool
}.

(** [for x in xs: body(x)] *)
Fixpoint for_ {A} (xs : list A) (body : A -> M unit) : M unit :=
  match xs with
  | [] => ret tt
  | x :: xs' => body x ;; for_ xs' body
  end.

(** [os.path.expanduser("~/go/bin")], fixed when the module is loaded. *)
Variable GO_BIN : string.

Definition check_dep (dep : Dep) : M unit :=
  rc <- subprocess_call (dep_check dep) ;;
  if negb (rc =? 0)%Z then
    print (Fore_YELLOW +:+ "[!] Installing system dependency: " +:+ dep_name dep
           +:+ Style_RESET_ALL) ;;
    subprocess_call (dep_install dep) ;;
    ret tt
  else
    print (Fore_GREEN +:+ "[" +:+ check_mark +:+ "] " +:+ dep_name dep +:+ " found"
           +:+ Style_RESET_ALL).

Definition default_check (name : string) : string :=
  "command -v " +:+ name +:+ " || test -x " +:+ GO_BIN +:+ "/" +:+ name.

Definition check_tool (tool : Tool) : M unit :=
  let name := tool_name tool in
  let check_cmd := default (default_check name) (tool_check tool) in
  rc <- subprocess_call (check_cmd +:+ " >/dev/null 2>&1") ;;
  if negb (rc =? 0)%Z then
    print (Fore_YELLOW +:+ "[!] Installing " +:+ name +:+ Style_RESET_ALL) ;;
    subprocess_call (tool_install tool) ;;
    ret tt
  else
    print (Fore_GREEN +:+ "[" +:+ check_mark +:+ "] " +:+ name +:+ " found"
           +:+ Style_RESET_ALL).

(** [check_tools], from the point where [tools.yaml] has been loaded into
    [data]. *)
Definition check_tools (data : ToolsYaml) : M unit :=
  for_ (default [] (system_dependencies data)) check_dep ;;
  for_ (tools data) check_tool.

(** ** Parallel execution engine *)

Definition task (name cmd : string) (outfile : option path) : M (string * Z) :=
  start <- time_time ;;
  run cmd outfile ;;
  stop <- time_time ;;
  ret (name, (stop - start)%Z).

(** The next entry of the tape, reduced to a choice below [bound]; an
    exhausted tape chooses the oldest running task. *)
Definition choose (bound : nat) : M nat :=
  fun s =>
    match st_tape s with
    | [] => (Ok 0, s)
    | c :: tp => (Ok (c mod bound), mkState (st_os s) (st_log s) tp)
    end.

(** The pool with [workers] threads.  [pending] holds, in submission
    order, the tasks that have not finished; the first [workers] of them are
    the running ones, and the tape says which of these completes next.  The
    futures are listed in completion order. *)
Fixpoint pool_run (workers : nat) (fuel : nat) (pending : list Task)
  : M (list (Res (string * Z))) :=
  match fuel with
  | 0 => ret []
  | S fuel' =>
      match pending with
      | [] => ret []
      | _ :: _ =>
          i <- choose (Nat.min workers (length pending)) ;;
          match pending !! i with
          | None => ret []
          | Some (name, cmd, outfile) =>
              fut <- attempt (task name cmd outfile) ;;
              rest <- pool_run workers fuel' (delete i pending) ;;
              ret (fut :: rest)
          end
      end
  end.

(** The elements of [l] in an order the tape picks. *)
Fixpoint shuffle {A} (fuel : nat) (l : list A) : M (list A) :=
  match fuel with
  | 0 => ret l
  | S fuel' =>
      match l with
      | [] => ret []
      | _ :: _ =>
          i <- choose (length l) ;;
          match l !! i with
          | None => ret l
          | Some x =>
              rest <- shuffle fuel' (delete i l) ;;
              ret (x :: rest)
          end
      end
  end.

(** [as_completed(futures)], for futures listed in completion order: the
    [k] futures that have finished when the iteration begins are kept in a
    set and come out in no particular order; the others follow as they
    complete. *)
Definition as_completed {A} (futures : list A) : M (list A) :=
  match futures with
  | [] => ret []
  | _ :: _ =>
      k <- choose (S (length futures)) ;;
      early <- shuffle k (take k futures) ;;
      ret (early ++ drop k futures)
  end.

(** The executor: the futures of the submitted tasks, in the order in
    which [as_completed] yields them. *)
Definition executor_run (workers : nat) (fuel : nat) (pending : list Task)
  : M (list (Res (string * Z))) :=
  finished <- pool_run workers fuel pending ;;
  as_completed finished.

(** The loop over [as_completed(futures)]: [future.result()] returns the
    pair or raises what the task raised. *)
Fixpoint collect (futures : list (Res (string * Z))) (results : list (string * Z))
  : M (list (string * Z)) :=
  match futures with
  | [] => ret results
  | Ok (name, duration) :: futures' => collect futures' (results ++ [(name, duration)])
  | Raise e :: _ => raise e
  end.

(** Leaving the [with ThreadPoolExecutor] block waits for every submitted
    task, whether the loop completed or raised: all tasks have run when
    [run_parallel] returns or raises. *)
Definition run_parallel (tasks : list Task) (workers : Z) : M (list (string * Z)) :=
  if (workers <=? 0)%Z then
    raise (ValueError "max_workers must be greater than 0")
  else
    futures <- executor_run (Z.to_nat workers) (length tasks) tasks ;;
    collect futures [].

(** ** Recon pipeline *)

(** [os.makedirs(d, exist_ok=True)], for a directory of the working
    directory ["."]. *)
Definition makedirs (d : string) : M unit :=
  fun s =>
    match dir_entries d (st_os s) with
    | Some _ => (Ok tt, s)
    | None =>
        match fs (st_os s) !! "." ≫= (.!! d) with
        | Some _ => (Raise (FileExistsError d), s)
        | None => (Ok tt, set_os (set_fs (<[d := ∅]> (fs (st_os s))) (st_os s)) s)
        end
    end.

(** [os.path.exists(name)], for a name of the working directory. *)
Definition path_exists (name : string) : M bool :=
  fun s =>
    (Ok (bool_decide (is_Some (fs (st_os s) !! name))
         || bool_decide (is_Some (fs (st_os s) !! "." ≫= (.!! name)))), s).

Definition out (name : string) : option path := Some (OUTPUT, name).

Definition sub_tasks : list Task :=
  [ ("subfinder", "subfinder -dL scope.txt -silent", out "sub1.txt");
    ("assetfinder", "assetfinder --subs-only $(cat scope.txt)", out "sub2.txt");
    ("amass", "amass enum -passive -df scope.txt", out "sub3.txt") ].

Definition url_tasks : list Task :=
  [ ("gau", "gau < " +:+ OUTPUT +:+ "/resolved.txt", out "urls1.txt");
    ("waybackurls", "waybackurls < " +:+ OUTPUT +:+ "/resolved.txt", out "urls2.txt");
    ("katana", "katana -list " +:+ OUTPUT +:+ "/resolved.txt -silent", out "urls3.txt") ].

Definition js_tasks : list Task :=
  [ ("subjs", "subjs -i " +:+ OUTPUT +:+ "/alive.txt", out "js.txt") ].

Definition param_tasks : list Task :=
  [ ("paramspider",
     "python3 ParamSpider/paramspider.py -l " +:+ OUTPUT +:+ "/resolved.txt",
     out "params1.txt");
    ("arjun",
     "arjun -i " +:+ OUTPUT +:+ "/alive.txt -oT " +:+ OUTPUT +:+ "/params2.txt",
     None) ].

Definition banner (title : string) : string :=
  Fore_MAGENTA +:+ nl +:+ title +:+ Style_RESET_ALL.

(** The default [workers=4] of [run_parallel]. *)
Definition default_workers : Z := 4.

Definition stage1 : M unit :=
  print (banner "[1/10] Subdomain Discovery") ;;
  run_parallel sub_tasks default_workers ;;
  run ("cat " +:+ OUTPUT +:+ "/sub*.txt | sort -u") (out "subdomains.txt") ;;
  ret tt.

Definition stage2 : M unit :=
  print (banner "[2/10] DNS Resolution") ;;
  run ("dnsx -l " +:+ OUTPUT +:+ "/subdomains.txt -silent") (out "resolved.txt") ;;
  ret tt.

Definition stage3 : M unit :=
  print (banner "[3/10] HTTP Probing") ;;
  run ("httpx -l " +:+ OUTPUT +:+ "/resolved.txt -status-code -title -tech-detect")
      (out "alive.txt") ;;
  ret tt.

Definition stage4 : M unit :=
  print (banner "[4/10] Port Scanning") ;;
  run ("naabu -l " +:+ OUTPUT +:+ "/resolved.txt -top-ports 1000 -silent")
      (out "ports.txt") ;;
  ret tt.

Definition stage5 : M unit :=
  print (banner "[5/10] Technology Fingerprinting") ;;
  run ("whatweb -i " +:+ OUTPUT +:+ "/alive.txt") (out "tech.txt") ;;
  ret tt.

Definition stage6 : M unit :=
  print (banner "[6/10] URL Discovery") ;;
  run_parallel url_tasks default_workers ;;
  run ("cat " +:+ OUTPUT +:+ "/urls*.txt | sort -u") (out "urls.txt") ;;
  ret tt.

Definition stage7 : M unit :=
  print (banner "[7/10] JavaScript Recon") ;;
  run_parallel js_tasks default_workers ;;
  ret tt.

Definition stage8 : M unit :=
  print (banner "[8/10] Parameter Mining") ;;
  present <- path_exists "ParamSpider" ;;
  (if negb present then
     run "git clone https://github.com/devanshbatham/ParamSpider.git" None ;; ret tt
   else ret tt) ;;
  run_parallel param_tasks default_workers ;;
  run ("cat " +:+ OUTPUT +:+ "/params*.txt | sort -u") (out "params.txt") ;;
  ret tt.

Definition stage9 : M unit :=
  print (banner "[9/10] Vulnerability Scanning (Nuclei)") ;;
  run ("nuclei -l " +:+ OUTPUT +:+ "/alive.txt -severity low,medium,high -silent")
      (out "nuclei.txt") ;;
  ret tt.

(** [recon]: its nine numbered blocks, in the order of the source. *)
Definition recon : M unit :=
  makedirs OUTPUT ;;
  stage1 ;; stage2 ;; stage3 ;; stage4 ;; stage5 ;;
  stage6 ;; stage7 ;; stage8 ;; stage9.

(** ** Report generation *)

(** Size of the write buffer of a file opened with ["w"]. *)
Variable bufsize : nat.

(** A file open for writing: what has been written and not yet flushed. *)
Record wfile : Type := mkWfile {
  wf_path : path;
  wf_buf : string
}.

(** [f.write(data)]: the data is encoded and joins the buffer, which goes
    to the disk once it outgrows [bufsize]. *)
Definition f_write (f : wfile) (data : string) : M wfile :=
  bytes <- encode data ;;
  fun s =>
    let b := wf_buf f +:+ bytes in
    if (bufsize <? String.length b)%nat then
      (Ok (mkWfile (wf_path f) ""), set_os (flush_to (wf_path f) b (st_os s)) s)
    else
      (Ok (mkWfile (wf_path f) b), s).

(** Closing flushes the buffer. *)
Definition f_close (f : wfile) : M unit :=
  o <- get_os ;;
  put_os (flush_to (wf_path f) (wf_buf f) o) ;;
  emit (EvWrite (wf_path f)).

(** [os.listdir(d)]: the names of the entries, files and sub-directories
    alike, in no particular order. *)
Definition listdir (d : string) : M (list string) :=
  fun s =>
    match dir_entries d (st_os s) with
    | None => (Raise (no_dir_error (d, "") (st_os s)), s)
    | Some m => (Ok ((map_to_list m).*1), s)
    end.

(** [sorted(names)] on strings: by code point, which is the order of
    [String.le] on the UTF-8 bytes of names that are valid UTF-8. *)
Definition sorted (names : list string) : list string := merge_sort String.le names.

Definition section_header (file : string) : string :=
  nl +:+ "===== " +:+ file +:+ " =====" +:+ nl.

(** The body of the loop that fills [report.txt].  The open file travels
    with the state so that it can be closed when a read raises. *)
Fixpoint write_sections (files : list string) (f : wfile) (s : State)
  : Res unit * wfile * State :=
  match files with
  | [] => (Ok tt, f, s)
  | file :: files' =>
      match f_write f (section_header file) s with
      | (Raise e, s1) => (Raise e, f, s1)
      | (Ok f1, s1) =>
          match read_file (OUTPUT, file) s1 with
          | (Raise e, s2) => (Raise e, f1, s2)
          | (Ok text, s2) =>
              match f_write f1 text s2 with
              | (Raise e, s3) => (Raise e, f1, s3)
              | (Ok f2, s3) => write_sections files' f2 s3
              end
          end
      end
  end.

(** The [with open(f"{OUTPUT}/report.txt", "w") as f:] block. *)
Definition report_txt : M unit :=
  let p := (OUTPUT, "report.txt") in
  open_w p ;;
  fun s =>
    match listdir OUTPUT s with
    | (Raise e, s1) => ((f_close (mkWfile p "") ;; raise e) s1)
    | (Ok names, s1) =>
        let '(r, f, s2) := write_sections (sorted names) (mkWfile p "") s1 in
        match f_close f s2 with
        | (Ok _, s3) => (r, s3)
        | (Raise e, s3) => (Raise e, s3)
        end
    end.

Definition html_head : string :=
  nl +:+ "    <html>" +:+ nl
  +:+ "    <head>" +:+ nl
  +:+ "        <title>ReconX Report</title>" +:+ nl
  +:+ "        <style>" +:+ nl
  +:+ "            body { font-family: monospace; background: #0f172a; color: #e5e7eb; }" +:+ nl
  +:+ "            h1, h2 { color: #38bdf8; }" +:+ nl
  +:+ "            pre { background: #020617; padding: 10px; overflow-x: auto; }" +:+ nl
  +:+ "        </style>" +:+ nl
  +:+ "    </head>" +:+ nl
  +:+ "    <body>" +:+ nl
  +:+ "    <h1>ReconX Report</h1>" +:+ nl
  +:+ "    ".

Definition html_item (content : gmap string string) (file : string) : string :=
  nl +:+ "      <h2>" +:+ file +:+ "</h2>" +:+ nl
  +:+ "      <pre>" +:+ default "" (content !! file) +:+ "</pre>" +:+ nl
  +:+ "    ".

Definition html_tail : string :=
  nl +:+ "    </body>" +:+ nl
  +:+ "    </html>" +:+ nl
  +:+ "    ".

(** [html.render(files=files, content=content)] for the template of
    [report]. *)
Definition render (files : list string) (content : gmap string string) : string :=
  html_head +:+ String.concat "" (html_item content <$> files) +:+ html_tail.

(** [{f: open(f"{OUTPUT}/{f}").read() for f in files}] *)
Fixpoint read_all (files : list string) (content : gmap string string)
  : M (gmap string string) :=
  match files with
  | [] => ret content
  | f :: files' =>
      text <- read_file (OUTPUT, f) ;;
      read_all files' (<[f := text]> content)
  end.

Definition report : M unit :=
  print (banner "[10/10] Report Generation") ;;
  report_txt ;;
  names <- listdir OUTPUT ;;
  let files := sorted names in
  content <- read_all files ∅ ;;
  write_file (OUTPUT, "report.html") (render files content).

(** ** Entry point *)

(** The main block up to the report; the closing message, which formats
    the elapsed time, is left out. *)
Definition main (data : ToolsYaml) : M unit :=
  check_tools data ;;
  recon ;;
  report.

End ReconX.

(** * Vocabulary of the statements *)

(** The same shell, except that every command ends with exit status [rc]
    and error stream [err]. *)
Definition with_status (rc : Z) (err : string) (sh : string -> OS -> Proc * OS)
  : string -> OS -> Proc * OS :=
  fun cmd o => let '(p, o') := sh cmd o in (mkProc rc (stdout_bytes p) err, o').

(** The capture location, when there is one, can be opened for writing:
    its directory exists and it does not name a sub-directory. *)
Definition can_capture (outfile : option path) (o : OS) : Prop :=
  match outfile with
  | None => True
  | Some p => exists d, fs o !! p.1 = Some d /\ d !! p.2 <> Some Folder
  end.

(** The bytes of a regular file, if there is one at [p]. *)
Definition file_content (p : path) (o : OS) : option string :=
  match fs o !! p.1 ≫= (.!! p.2) with
  | Some (File bytes) => Some bytes
  | _ => None
  end.

(** A shell whose commands all fail: exit status 1, nothing printed,
    nothing touched. *)
Definition sh_fail : string -> OS -> Proc * OS :=
  fun _ o => (mkProc 1 "" "boom", o).

Definition task_name (t : Task) : string := t.1.1.
Definition task_cmd (t : Task) : string := t.1.2.
Definition task_outfile (t : Task) : option path := t.2.

(** What one successful call of [run] adds to the log. *)
Definition run_events (cmd : string) (outfile : option path) : list Event :=
  EvExec cmd :: match outfile with Some p => [EvWrite p] | None => [] end.

Definition task_events (t : Task) : list Event :=
  run_events (task_cmd t) (task_outfile t).

(** A finished task: the task, its future and what it added to the log. *)
Abbreviation Finished := (Task * Res (string * Z) * list Event)%type.

Definition finished_ok (f : Finished) : Prop :=
  let '(t, fut, evs) := f in
  (exists d, fut = Ok (task_name t, d) /\ evs = task_events t) \/
  (exists e, fut = Raise e /\ evs = [EvExec (task_cmd t)]).

(** The first exception in a list of futures: the one the loop over the
    futures meets first. *)
Fixpoint first_exn {A} (futures : list (Res A)) : option exn :=
  match futures with
  | [] => None
  | Ok _ :: futures' => first_exn futures'
  | Raise e :: _ => Some e
  end.

Definition returned {A} (futures : list (Res A)) : list A :=
  omap (fun fut => match fut with Ok a => Some a | Raise _ => None end) futures.

(** Every capture location of the tasks can be opened for writing. *)
Definition capturable (tasks : list Task) (o : OS) : Prop :=
  Forall (fun t => can_capture (task_outfile t) o) tasks.

(** The shell serves the tasks: none of their commands makes a capture
    location of the pool unusable, and each prints text that decodes. *)
Definition sh_serves (sh : string -> OS -> Proc * OS) (tasks : list Task) : Prop :=
  forall t o, t ∈ tasks -> capturable tasks o ->
    capturable tasks (sh (task_cmd t) o).2 /\
    is_Some (decode_text (stdout_bytes (sh (task_cmd t) o).1)).

(** A shell that knows one command, [echo]: it prints its argument and a
    newline, and a hundredth of a second passes. *)
Definition sh_echo : string -> OS -> Proc * OS :=
  fun cmd o =>
    let o' := mkOS (fs o) (time o + 1) in
    if String.prefix "echo " cmd then
      (mkProc 0 (String.substring 5 (String.length cmd - 5) cmd +:+ nl) "", o')
    else
      (mkProc 127 "" "command not found", o').

Definition echo_tasks : list Task :=
  [ ("A", "echo 1", Some ("output", "A.txt"));
    ("B", "echo 2", Some ("output", "B.txt"));
    ("C", "echo 3", Some ("output", "C.txt")) ].

(** Two tasks, the first of which captures into a directory that does not
    exist. *)
Definition stray_tasks : list Task :=
  [ ("A", "echo 1", Some ("missing", "A.txt"));
    ("B", "echo 2", Some ("output", "B.txt")) ].

Definition os_demo : OS :=
  mkOS {[ "output" := {[ "old.txt" := File "stale" ]} ]} 0.

(** The commands that [subprocess.call] was given, in order. *)
Definition calls (log : list Event) : list string :=
  omap (fun e => match e with EvCall c => Some c | _ => None end) log.

(** The bootstrap list: one presence check and one install command per
    entry of [tools.yaml]. *)
Definition dep_entry (dep : Dep) : string * string :=
  (dep_check dep, dep_install dep).

Definition tool_entry (GO_BIN : string) (tool : Tool) : string * string :=
  (default (default_check GO_BIN (tool_name tool)) (tool_check tool)
     +:+ " >/dev/null 2>&1",
   tool_install tool).

Definition entries (GO_BIN : string) (data : ToolsYaml) : list (string * string) :=
  (dep_entry <$> default [] (system_dependencies data))
  ++ (tool_entry GO_BIN <$> tools data).

(** Ensure-present, in the words of the bootstrap contract: the check is
    run; the install command is run exactly when the check fails, and
    whatever the install command returns the entry is over. *)
Inductive ensure_step (sh : string -> OS -> Proc * OS) (chk inst : string)
  : OS -> list string -> OS -> Prop :=
| ensure_present o p o1 :
    sh chk o = (p, o1) -> returncode p = 0%Z ->
    ensure_step sh chk inst o [chk] o1
| ensure_missing o p o1 q o2 :
    sh chk o = (p, o1) -> returncode p <> 0%Z ->
    sh inst o1 = (q, o2) ->
    ensure_step sh chk inst o [chk; inst] o2.

Inductive bootstrap (sh : string -> OS -> Proc * OS)
  : list (string * string) -> OS -> list string -> OS -> Prop :=
| bootstrap_nil o : bootstrap sh [] o [] o
| bootstrap_cons chk inst rest o c1 o1 c2 o2 :
    ensure_step sh chk inst o c1 o1 ->
    bootstrap sh rest o1 c2 o2 ->
    bootstrap sh ((chk, inst) :: rest) o (c1 ++ c2) o2.

(** One pass of a loop body of [check_tools] on an entry: it returns, and
    what it called is an ensure-present step. *)
Definition ensures (sh : string -> OS -> Proc * OS) (chk inst : string)
    (body : M unit) : Prop :=
  forall s, exists s' new,
    body s = (Ok tt, s') /\ st_log s' = st_log s ++ new /\
    ensure_step sh chk inst (st_os s) (calls new) (st_os s').

(** One section of the text report. *)
Definition text_section (file text : string) : string :=
  section_header file +:+ text.

(** The directory of artifacts, if it exists. *)
Definition out_dir (s : State) : option (gmap string Node) :=
  fs (st_os s) !! OUTPUT.

(** A directory the report builder can read through: every entry is a
    regular file, and its name and its bytes are valid UTF-8. *)
Definition clean (d : gmap string Node) : Prop :=
  map_Forall (fun n x => utf8_valid n = true /\
                         exists bytes, x = File bytes /\ utf8_valid bytes = true) d.

(** The artifact directory exists and is clean. *)
Definition tidy (o : OS) : Prop :=
  exists d, fs o !! OUTPUT = Some d /\ clean d.

(** No command spoils the artifact directory, and every command prints
    text that decodes. *)
Definition sh_tidy (sh : string -> OS -> Proc * OS) : Prop :=
  forall cmd o, tidy o ->
    tidy (sh cmd o).2 /\ is_Some (decode_text (stdout_bytes (sh cmd o).1)).

(** While [report.txt] is being written: [f] is the open report, the
    artifact directory is [d] with the report in it, and what is on the
    disk followed by what is still buffered is [W], all that has been
    written so far. *)
Definition report_inv (W : string) (d : gmap string Node)
    (f : wfile) (s : State) : Prop :=
  wf_path f = (OUTPUT, "report.txt") /\
  exists disk,
    out_dir s = Some (<["report.txt" := File disk]> d) /\
    utf8_valid disk = true /\ utf8_valid (wf_buf f) = true /\
    disk +:+ wf_buf f = W.

(** One item of the HTML report, for a file and its text. *)
Definition html_section (file text : string) : string :=
  nl +:+ "      <h2>" +:+ file +:+ "</h2>" +:+ nl
  +:+ "      <pre>" +:+ text +:+ "</pre>" +:+ nl
  +:+ "    ".

(** [io.DEFAULT_BUFFER_SIZE] *)
Definition DEFAULT_BUFFER_SIZE : nat := 8 * 1024.

(** The artifact store of the report scenario: [a.txt] holds ["x"] and
    [b.txt] holds ["y"]. *)
Definition os_ab : OS :=
  mkOS {[ "output" := {[ "a.txt" := File "x"; "b.txt" := File "y" ]} ]} 0.

Definition st_ab : State := mkState os_ab [] [].

(** The text report that scenario expects. *)
Definition expected_ab : string :=
  nl +:+ "===== a.txt =====" +:+ nl +:+ "x"
  +:+ nl +:+ "===== b.txt =====" +:+ nl +:+ "y".

(** ** The stages of [recon], as the source lays them out *)

Definition step_events (steps : list (string * option path)) : list Event :=
  flat_map (fun step => run_events step.1 step.2) steps.

Definition stage_banner (k : nat) : string :=
  match k with
  | 1 => banner "[1/10] Subdomain Discovery"
  | 2 => banner "[2/10] DNS Resolution"
  | 3 => banner "[3/10] HTTP Probing"
  | 4 => banner "[4/10] Port Scanning"
  | 5 => banner "[5/10] Technology Fingerprinting"
  | 6 => banner "[6/10] URL Discovery"
  | 7 => banner "[7/10] JavaScript Recon"
  | 8 => banner "[8/10] Parameter Mining"
  | 9 => banner "[9/10] Vulnerability Scanning (Nuclei)"
  | _ => ""
  end.

(** The command a stage may run before its tasks. *)
Definition stage_pre (k : nat) : list (string * option path) :=
  match k with
  | 8 => [("git clone https://github.com/devanshbatham/ParamSpider.git", None)]
  | _ => []
  end.

(** The tasks a stage hands to the pool. *)
Definition stage_pool (k : nat) : list Task :=
  match k with
  | 1 => sub_tasks
  | 6 => url_tasks
  | 7 => js_tasks
  | 8 => param_tasks
  | _ => []
  end.

(** The command a stage runs on its own, after its tasks have joined: the
    merge step of a stage with tasks, the single command of the others. *)
Definition stage_steps (k : nat) : list (string * option path) :=
  match k with
  | 1 => [("cat output/sub*.txt | sort -u", out "subdomains.txt")]
  | 2 => [("dnsx -l output/subdomains.txt -silent", out "resolved.txt")]
  | 3 => [("httpx -l output/resolved.txt -status-code -title -tech-detect",
           out "alive.txt")]
  | 4 => [("naabu -l output/resolved.txt -top-ports 1000 -silent", out "ports.txt")]
  | 5 => [("whatweb -i output/alive.txt", out "tech.txt")]
  | 6 => [("cat output/urls*.txt | sort -u", out "urls.txt")]
  | 8 => [("cat output/params*.txt | sort -u", out "params.txt")]
  | 9 => [("nuclei -l output/alive.txt -severity low,medium,high -silent",
           out "nuclei.txt")]
  | _ => []
  end.

(** Every event stage [k] can add to the log. *)
Definition stage_alphabet (k : nat) : list Event :=
  EvPrint (stage_banner k)
  :: step_events (stage_pre k)
  ++ flat_map task_events (stage_pool k)
  ++ step_events (stage_steps k).

(** Stage [k] has run to its end: after the banner (and the optional
    command before the tasks) every task of the pool has run its command and
    written its capture file, in some completion order, and after all of
    them the stage's own command has run and written its artifact. *)
Definition stage_complete (k : nat) (seg : list Event) : Prop :=
  exists pre order,
    (pre = [] \/ pre = step_events (stage_pre k)) /\
    order ≡ₚ stage_pool k /\
    seg = EvPrint (stage_banner k)
          :: pre ++ flat_map task_events order ++ step_events (stage_steps k).

(** What a program adds to the log: always events of [alpha], and when it
    returns normally a segment that satisfies [full]. *)
Definition emits {A} (m : M A) (alpha : list Event) (full : list Event -> Prop)
  : Prop :=
  forall s, exists seg,
    st_log (m s).2 = st_log s ++ seg /\
    seg ⊆ alpha /\
    (is_ok (m s).1 = true -> full seg).

(** A program that keeps the invariant [I] of the system and returns
    normally whenever it holds. *)
Definition safe_in {A} (I : OS -> Prop) (m : M A) : Prop :=
  forall s, I (st_os s) -> I (st_os (m s).2) /\ is_ok (m s).1 = true.

(** The numbered blocks of [recon], in order. *)
Definition stages (sh : string -> OS -> Proc * OS) : list (M unit) :=
  [stage1 sh; stage2 sh; stage3 sh; stage4 sh; stage5 sh;
   stage6 sh; stage7 sh; stage8 sh; stage9 sh].

Fixpoint run_stages (ms : list (M unit)) : M unit :=
  match ms with
  | [] => ret tt
  | m :: ms' => m ;; run_stages ms'
  end.

#[global] Instance Event_eq_dec : EqDecision Event.
Proof. solve_decision. Defined.

(** The command of the last stage. *)
Definition nuclei_cmd : string :=
  "nuclei -l output/alive.txt -severity low,medium,high -silent".

(** The three events of [report]. *)
Definition report_events : list Event :=
  [EvPrint (banner "[10/10] Report Generation");
   EvWrite (OUTPUT, "report.txt");
   EvWrite (OUTPUT, "report.html")].

(** A fresh start: an empty working directory, no choices on the tape. *)
Definition st_fresh : State := mkState (mkOS {[ "." := ∅ ]} 0) [] [].

(** A small [tools.yaml]: one system dependency and one tool that leaves
    its check to the default. *)
Definition data_demo : ToolsYaml :=
  mkToolsYaml (Some [mkDep "jq" "command -v jq" "apt install -y jq"])
              [mkTool "httpx" None "go install httpx"].

(** The commands that [subprocess.run] was given, in order. *)
Definition execs (log : list Event) : list string :=
  omap (fun e => match e with EvExec c => Some c | _ => None end) log.

(** The wall clock never goes back while a command runs. *)
Definition sh_monotone (sh : string -> OS -> Proc * OS) : Prop :=
  forall cmd o, (time o <= time (sh cmd o).2)%Z.

(** The command that fetches ParamSpider. *)
Definition git_clone_cmd : string :=
  "git clone https://github.com/devanshbatham/ParamSpider.git".

(** A future that holds a result holds a non-negative duration. *)
Definition nonneg_future (fut : Res (string * Z)) : Prop :=
  match fut with Ok (_, d) => (0 <= d)%Z | Raise _ => True end.

(** An event that is the write of a file of the artifact directory, or
    no write at all. *)
Definition writes_inside (e : Event) : Prop :=
  match e with
  | EvWrite p => p.1 = OUTPUT
  | _ => True
  end.

#[global] Instance writes_inside_dec e : Decision (writes_inside e).
Proof. destruct e; simpl; apply _. Defined.

(** What stage 8 does once ParamSpider is in place: its tasks, then its
    merge step. *)
Definition stage8_rest_alphabet : list Event :=
  flat_map task_events param_tasks
  ++ run_events "cat output/params*.txt | sort -u" (out "params.txt").

(** A shell whose commands all succeed silently and touch nothing. *)
Definition sh_ok : string -> OS -> Proc * OS :=
  fun _ o => (mkProc 0 "" "", o).

(** Commands that only print: what a command prints is [out cmd] whatever
    the state of the system, and no command touches a file. *)
Definition sh_prints (sh : string -> OS -> Proc * OS) (out : string -> string)
  : Prop :=
  forall cmd o, stdout (sh cmd o).1 = out cmd /\ fs (sh cmd o).2 = fs o.

(** What [echo] prints, as the text [run] makes of it. *)
Definition echo_out (cmd : string) : string :=
  if String.prefix "echo " cmd then
    default "" (decode_text (String.substring 5 (String.length cmd - 5) cmd +:+ nl))
  else "".

(** The messages printed, in order. *)
Definition prints (log : list Event) : list string :=
  omap (fun e => match e with EvPrint m => Some m | _ => None end) log.

(** An event of the bootstrap: a call or a message. *)
Definition call_or_print (e : Event) : Prop :=
  match e with
  | EvCall _ | EvPrint _ => True
  | _ => False
  end.

(** One pass of a loop body of [check_tools]: calls and messages only,
    and exactly one message. *)
Definition reports_once (body : M unit) : Prop :=
  forall s, exists s' new,
    body s = (Ok tt, s') /\ st_log s' = st_log s ++ new /\
    Forall call_or_print new /\ length (prints new) = 1%nat.

(** An event that is not a write of one of the two reports. *)
Definition not_a_report (e : Event) : Prop :=
  e <> EvWrite (OUTPUT, "report.txt") /\ e <> EvWrite (OUTPUT, "report.html").

#[global] Instance not_a_report_dec e : Decision (not_a_report e).
Proof. unfold not_a_report. apply _. Defined.

(** A decoder state that [utf8_step] can produce: inside a character it
    waits for a byte of the upper half. *)
Definition utf8_wf (st : utf8_state) : Prop :=
  match st with U0 => True | Ucont _ lo _ => (128 <= lo)%nat end.

(** A command [run] can be given while [I] holds: it has no NUL character,
    it keeps [I], and it prints text that decodes. *)
Definition cmd_safe (sh : string -> OS -> Proc * OS) (I : OS -> Prop)
    (cmd : string) : Prop :=
  has_nul cmd = false /\
  forall o, I o ->
    I (sh cmd o).2 /\ is_Some (decode_text (stdout_bytes (sh cmd o).1)).

(** A capture location that can be written while [I] holds, and whose
    writing keeps [I]. *)
Definition writable (I : OS -> Prop) (outfile : option path) : Prop :=
  forall p, outfile = Some p ->
  forall o, I o ->
    exists d, fs o !! p.1 = Some d /\ d !! p.2 <> Some Folder /\
      forall text, utf8_valid text = true ->
        I (set_fs (<[p.1 := <[p.2 := File text]> d]> (fs o)) o).

(** A program that changes no regular file outside [ps]. *)
Definition touches_only {A} (ps : list path) (m : M A) : Prop :=
  forall s q, q ∉ ps -> file_content q (st_os (m s).2) = file_content q (st_os s).

(** A shell whose commands all print one byte that is not UTF-8, and end
    with status 3. *)
Definition sh_binary : string -> OS -> Proc * OS :=
  fun _ o => (mkProc 3 (String (ascii_of_nat 255) "") "", o).

(** A working directory in which a plain file is called [output]. *)
Definition st_blocked : State :=
  mkState (mkOS {[ "." := {[ "output" := File "" ]} ]} 0) [] [].

(** * Properties *)

(** ** Strings *)

Lemma append_cons a (x y : string) : String a x +:+ y = String a (x +:+ y).
Proof. reflexivity. Qed.

Lemma append_nil_l (x : string) : "" +:+ x = x.
Proof. reflexivity. Qed.

Lemma append_nil_r (x : string) : x +:+ "" = x.
Proof. induction x as [|a x IH]; [done|]. by rewrite append_cons, IH. Qed.

Lemma append_assoc (x y z : string) : (x +:+ y) +:+ z = x +:+ (y +:+ z).
Proof. induction x as [|a x IH]; [done|]. by rewrite !append_cons, IH. Qed.

Lemma concat_cons (x : string) (xs : list string) :
  String.concat "" (x :: xs) = x +:+ String.concat "" xs.
Proof. destruct xs; simpl; [by rewrite append_nil_r|done]. Qed.

(** ** Text and bytes *)

Lemma utf8_run_app a : forall st b,
  utf8_run st (a +:+ b) = utf8_run st a ≫= (fun st' => utf8_run st' b).
Proof.
  induction a as [|c a IH]; intros st b; [done|].
  rewrite append_cons. simpl. destruct (utf8_step st (nat_of_ascii c)); [apply IH|done].
Qed.

Lemma utf8_valid_run s : utf8_valid s = true <-> utf8_run U0 s = Some U0.
Proof.
  unfold utf8_valid. destruct (utf8_run U0 s) as [[|? ? ?]|]; split; congruence.
Qed.

Lemma utf8_valid_app a b :
  utf8_valid a = true -> utf8_valid b = true -> utf8_valid (a +:+ b) = true.
Proof.
  rewrite !utf8_valid_run. intros Ha Hb. by rewrite utf8_run_app, Ha.
Qed.

Lemma utf8_valid_concat (l : list string) :
  Forall (fun x => utf8_valid x = true) l -> utf8_valid (String.concat "" l) = true.
Proof.
  induction 1 as [|x l Hx _ IH]; [done|]. rewrite concat_cons. by apply utf8_valid_app.
Qed.

Lemma utf8_step_wf st n st' : utf8_wf st -> utf8_step st n = Some st' -> utf8_wf st'.
Proof.
  destruct st as [|more lo hi]; simpl; intros Hwf Hstep.
  - repeat (match type of Hstep with
            | (if ?b then _ else _) = _ => destruct b
            end; [by (injection Hstep as <-; simpl; lia) || done|]); done.
  - destruct ((lo <=? n) && (n <? hi))%nat; [|done]. injection Hstep as <-.
    destruct more; simpl; lia.
Qed.

(** A byte of the lower half is a character of its own. *)
Lemma utf8_step_ascii st n st' :
  utf8_wf st -> (n < 128)%nat -> utf8_step st n = Some st' -> st = U0 /\ st' = U0.
Proof.
  destruct st as [|more lo hi]; simpl; intros Hwf Hn Hstep.
  - destruct (n <? 128)%nat eqn:E; [by injection Hstep as <-|].
    apply Nat.ltb_ge in E. lia.
  - destruct (lo <=? n)%nat eqn:E; [|done]. apply Nat.leb_le in E. lia.
Qed.

Lemma CR_byte : nat_of_ascii CR = 13%nat.
Proof. reflexivity. Qed.

Lemma LF_byte : nat_of_ascii LF = 10%nat.
Proof. reflexivity. Qed.

Lemma newlines_run s : forall st c,
  utf8_wf st -> (st <> U0 -> c = false) ->
  utf8_run st s = Some U0 -> utf8_run st (newlines_from c s) = Some U0.
Proof.
  induction s as [|a s IH]; intros st c Hwf Hc Hrun; [done|].
  simpl in Hrun. destruct (utf8_step st (nat_of_ascii a)) as [st'|] eqn:Hstep; [|done].
  pose proof (utf8_step_wf _ _ _ Hwf Hstep) as Hwf'.
  simpl. destruct (Ascii.eqb a CR) eqn:Ecr.
  { apply Ascii.eqb_eq in Ecr. subst a.
    destruct (utf8_step_ascii st (nat_of_ascii CR) st' Hwf) as [-> ->];
      [rewrite CR_byte; lia|done|].
    simpl. by apply IH. }
  destruct (Ascii.eqb a LF) eqn:Elf.
  { apply Ascii.eqb_eq in Elf. subst a.
    destruct (utf8_step_ascii st (nat_of_ascii LF) st' Hwf) as [-> ->];
      [rewrite LF_byte; lia|done|].
    destruct c; [by apply IH|]. simpl. by apply IH. }
  simpl. rewrite Hstep. by apply IH.
Qed.

(** Translating the line endings of a text gives a text. *)
Lemma utf8_valid_newlines s :
  utf8_valid s = true -> utf8_valid (universal_newlines s) = true.
Proof.
  rewrite !utf8_valid_run. by apply newlines_run.
Qed.

(** What decodes, decodes to a text that can be encoded again. *)
Lemma decode_text_valid bytes text :
  decode_text bytes = Some text -> utf8_valid text = true.
Proof.
  unfold decode_text. destruct (utf8_valid bytes) eqn:E; [|done].
  intros H. injection H as <-. by apply utf8_valid_newlines.
Qed.

Lemma stdout_decoded p text :
  decode_text (stdout_bytes p) = Some text -> stdout p = text.
Proof. unfold stdout. by intros ->. Qed.

(** Line endings are unified, bytes that are not UTF-8 are refused, and so
    are a surrogate and an overlong form. *)
Example decode_crlf :
  decode_text ("x" +:+ String CR (String LF "y") +:+ String CR "z")
  = Some ("x" +:+ String LF "y" +:+ String LF "z").
Proof. reflexivity. Qed.

Example decode_byte_255 : decode_text (String (ascii_of_nat 255) "") = None.
Proof. reflexivity. Qed.

Example decode_check_mark : decode_text check_mark = Some check_mark.
Proof. reflexivity. Qed.

Example decode_surrogate :
  decode_text (String (ascii_of_nat 237) (String (ascii_of_nat 160)
                 (String (ascii_of_nat 128) ""))) = None.
Proof. reflexivity. Qed.

Example decode_overlong :
  decode_text (String (ascii_of_nat 192) (String (ascii_of_nat 128) "")) = None.
Proof. reflexivity. Qed.

(** ** The command executor *)

Section RunFacts.

Variable sh : string -> OS -> Proc * OS.

Lemma dir_entries_key d o m : fs o !! d = Some m -> dir_entries d o = Some m.
Proof. unfold dir_entries. by intros ->. Qed.

Lemma open_w_ok p s d :
  fs (st_os s) !! p.1 = Some d -> d !! p.2 <> Some Folder ->
  open_w p s =
  (Ok tt, set_os (set_fs (<[p.1 := <[p.2 := File ""]> d]> (fs (st_os s))) (st_os s)) s).
Proof.
  intros Hd Hn. unfold open_w. rewrite (dir_entries_key _ _ _ Hd).
  by destruct (d !! p.2) as [[b|]|].
Qed.

(** Opening a file for writing either succeeds, leaving the log, the tape
    and the clock alone, or raises and changes nothing. *)
Lemma open_w_outcome p s :
  (exists s', open_w p s = (Ok tt, s') /\ st_log s' = st_log s /\
     st_tape s' = st_tape s /\ time (st_os s') = time (st_os s) /\
     is_Some (fs (st_os s') !! p.1)) \/
  (exists e, open_w p s = (Raise e, s)).
Proof.
  unfold open_w. destruct (dir_entries p.1 (st_os s)) as [d|]; [|right; eauto].
  destruct (d !! p.2) as [[b|]|]; [left|right; eauto|left];
    (eexists; split; [reflexivity|]; simpl; rewrite lookup_insert_eq; eauto).
Qed.

Lemma write_file_ok p data s d :
  fs (st_os s) !! p.1 = Some d -> d !! p.2 <> Some Folder ->
  utf8_valid data = true ->
  write_file p data s =
  (Ok tt, mkState (set_fs (<[p.1 := <[p.2 := File data]> d]> (fs (st_os s))) (st_os s))
                  (st_log s ++ [EvWrite p]) (st_tape s)).
Proof.
  intros Hd Hn Hv. unfold write_file, bind. rewrite (open_w_ok p s d Hd Hn).
  unfold attempt, bind, encode. rewrite Hv.
  unfold ret, get_os, put_os, emit, flush_to. simpl.
  rewrite lookup_insert_eq. simpl. rewrite lookup_insert_eq. simpl.
  by rewrite !insert_insert_eq.
Qed.

Lemma write_file_raise p data s e :
  open_w p s = (Raise e, s) -> write_file p data s = (Raise e, s).
Proof. intros H. unfold write_file, bind. by rewrite H. Qed.

(** Writing a text into a file: it is written and the file closed, or the
    file cannot be opened and nothing happens. *)
Lemma write_file_outcome p data s :
  utf8_valid data = true ->
  (exists s', write_file p data s = (Ok tt, s') /\
     st_log s' = st_log s ++ [EvWrite p] /\ st_tape s' = st_tape s /\
     time (st_os s') = time (st_os s)) \/
  (exists e, write_file p data s = (Raise e, s)).
Proof.
  intros Hv.
  destruct (open_w_outcome p s) as [(s1 & Hopen & Hl & Ht & Htime & Hdir)|[e He]].
  - left. unfold write_file, bind. rewrite Hopen.
    unfold attempt, bind, encode. rewrite Hv.
    unfold ret, get_os, put_os, emit. simpl.
    eexists. split; [reflexivity|]. simpl. rewrite Hl, Ht.
    split; [done|]. split; [done|]. rewrite <- Htime.
    unfold flush_to. by destruct (fs (st_os s1) !! p.1).
  - right. exists e. by apply write_file_raise.
Qed.

Lemma subprocess_run_ok cmd s text :
  has_nul cmd = false ->
  decode_text (stdout_bytes (sh cmd (st_os s)).1) = Some text ->
  subprocess_run sh cmd s =
  (Ok (sh cmd (st_os s)).1,
   mkState (sh cmd (st_os s)).2 (st_log s ++ [EvExec cmd]) (st_tape s)).
Proof.
  intros Hnul Hdec. unfold subprocess_run, bind, emit. rewrite Hnul. simpl.
  destruct (sh cmd (st_os s)) as [p o]. simpl in *. by rewrite Hdec.
Qed.

(** Output that does not decode: the command has run, and
    [subprocess.run] raises. *)
Lemma subprocess_run_undecodable cmd s :
  has_nul cmd = false ->
  decode_text (stdout_bytes (sh cmd (st_os s)).1) = None ->
  subprocess_run sh cmd s =
  (Raise UnicodeDecodeError,
   mkState (sh cmd (st_os s)).2 (st_log s ++ [EvExec cmd]) (st_tape s)).
Proof.
  intros Hnul Hdec. unfold subprocess_run, bind, emit. rewrite Hnul. simpl.
  destruct (sh cmd (st_os s)) as [p o]. simpl in *. by rewrite Hdec.
Qed.

(** A NUL character in the command line: nothing runs. *)
Lemma subprocess_run_nul cmd s :
  has_nul cmd = true ->
  subprocess_run sh cmd s =
  (Raise (ValueError "embedded null byte"),
   mkState (st_os s) (st_log s ++ [EvExec cmd]) (st_tape s)).
Proof. intros Hnul. unfold subprocess_run, bind, emit. by rewrite Hnul. Qed.

(** The ways [subprocess.run] ends. *)
Lemma subprocess_run_outcome cmd s :
  (exists text, has_nul cmd = false /\
     decode_text (stdout_bytes (sh cmd (st_os s)).1) = Some text /\
     subprocess_run sh cmd s =
     (Ok (sh cmd (st_os s)).1,
      mkState (sh cmd (st_os s)).2 (st_log s ++ [EvExec cmd]) (st_tape s))) \/
  (exists e o, subprocess_run sh cmd s =
     (Raise e, mkState o (st_log s ++ [EvExec cmd]) (st_tape s))).
Proof.
  destruct (has_nul cmd) eqn:Hnul.
  - right. rewrite (subprocess_run_nul cmd s Hnul). eauto.
  - destruct (decode_text (stdout_bytes (sh cmd (st_os s)).1)) as [text|] eqn:Hdec.
    + left. exists text. split; [done|]. split; [done|].
      by apply (subprocess_run_ok cmd s text).
    + right. rewrite (subprocess_run_undecodable cmd s Hnul Hdec). eauto.
Qed.

Lemma run_no_capture cmd s text :
  has_nul cmd = false ->
  decode_text (stdout_bytes (sh cmd (st_os s)).1) = Some text ->
  run sh cmd None s =
  (Ok text, mkState (sh cmd (st_os s)).2 (st_log s ++ [EvExec cmd]) (st_tape s)).
Proof.
  intros Hnul Hdec. unfold run, bind.
  rewrite (subprocess_run_ok cmd s text Hnul Hdec). unfold ret.
  by rewrite (stdout_decoded _ text Hdec).
Qed.

Lemma run_capture_ok cmd p s d text :
  has_nul cmd = false ->
  decode_text (stdout_bytes (sh cmd (st_os s)).1) = Some text ->
  fs (sh cmd (st_os s)).2 !! p.1 = Some d -> d !! p.2 <> Some Folder ->
  run sh cmd (Some p) s =
  (Ok text,
   mkState (set_fs (<[p.1 := <[p.2 := File text]> d]> (fs (sh cmd (st_os s)).2))
                   (sh cmd (st_os s)).2)
           (st_log s ++ [EvExec cmd; EvWrite p]) (st_tape s)).
Proof.
  intros Hnul Hdec Hd Hn. unfold run, bind.
  rewrite (subprocess_run_ok cmd s text Hnul Hdec).
  rewrite (stdout_decoded _ text Hdec).
  erewrite write_file_ok;
    [|simpl; exact Hd|exact Hn|by eapply decode_text_valid].
  unfold ret. simpl. by rewrite <- app_assoc.
Qed.

(** When the output does not decode, [run] raises before it opens the
    capture file. *)
Lemma run_undecodable cmd outfile s :
  has_nul cmd = false ->
  decode_text (stdout_bytes (sh cmd (st_os s)).1) = None ->
  run sh cmd outfile s =
  (Raise UnicodeDecodeError,
   mkState (sh cmd (st_os s)).2 (st_log s ++ [EvExec cmd]) (st_tape s)).
Proof.
  intros Hnul Hdec. unfold run, bind.
  by rewrite (subprocess_run_undecodable cmd s Hnul Hdec).
Qed.

End RunFacts.

Section Executor.

Variable sh : string -> OS -> Proc * OS.

(** C4. [run] does not look at the exit status or at the error stream:
    with any exit status and any error stream forced on the command it
    behaves exactly as before, raising or not.  And whatever the exit
    status, [run] returns, without raising, the text the command printed,
    provided that the command line has no NUL character, that what the
    command printed decodes, and that the capture location (if any) can be
    opened. *)
Theorem run_fail_soft (cmd : string) (outfile : option path) (s : State)
    (rc : Z) (err : string) :
  run (with_status rc err sh) cmd outfile s = run sh cmd outfile s /\
  (has_nul cmd = false ->
   can_capture outfile (sh cmd (st_os s)).2 ->
   forall text, decode_text (stdout_bytes (sh cmd (st_os s)).1) = Some text ->
     (run (with_status rc err sh) cmd outfile s).1 = Ok text).
Proof.
  assert (run (with_status rc err sh) cmd outfile s = run sh cmd outfile s) as Heq.
  { unfold run, subprocess_run, bind, with_status, emit.
    destruct (has_nul cmd); [done|]. simpl.
    destruct (sh cmd (st_os s)) as [pr o]. simpl.
    by destruct (decode_text (stdout_bytes pr)). }
  split; [exact Heq|]. intros Hnul Hc text Hdec. rewrite Heq.
  destruct outfile as [p|]; simpl in Hc.
  - destruct Hc as (d & Hd & Hn).
    by rewrite (run_capture_ok sh cmd p s d text Hnul Hdec Hd Hn).
  - by rewrite (run_no_capture sh cmd s text Hnul Hdec).
Qed.

(** C5. When [run] is given a capture location that can be opened, and
    the command (whose line has no NUL character) prints text that decodes,
    then [run] returns that text and the file holds exactly that text
    afterwards, whatever it held before; the other files are as the command
    left them. *)
Theorem run_capture_overwrites (cmd : string) (p : path) (s : State) (text : string) :
  has_nul cmd = false ->
  decode_text (stdout_bytes (sh cmd (st_os s)).1) = Some text ->
  can_capture (Some p) (sh cmd (st_os s)).2 ->
  let s' := (run sh cmd (Some p) s).2 in
  (run sh cmd (Some p) s).1 = Ok text /\
  file_content p (st_os s') = Some text /\
  forall q, q <> p -> file_content q (st_os s') = file_content q (sh cmd (st_os s)).2.
Proof.
  intros Hnul Hdec (d & Hd & Hn). cbv zeta.
  rewrite (run_capture_ok sh cmd p s d text Hnul Hdec Hd Hn). simpl.
  split; [done|]. unfold file_content. simpl. split.
  - rewrite lookup_insert_eq. simpl. by rewrite lookup_insert_eq.
  - intros q Hq. destruct (decide (q.1 = p.1)) as [E|E].
    + rewrite E, lookup_insert_eq, Hd. simpl.
      rewrite lookup_insert_ne; [done|].
      intros E2. apply Hq. destruct p, q; simpl in *; congruence.
    + by rewrite lookup_insert_ne.
Qed.

End Executor.

Lemma os_demo_old : can_capture (Some ("output", "old.txt")) os_demo.
Proof.
  exists {[ "old.txt" := File "stale" ]}. split; [reflexivity|].
  by rewrite lookup_singleton_eq.
Qed.

Lemma run_fail_soft_witness :
  (run (with_status 3 "boom" sh_echo) "echo hi" (Some ("output", "old.txt"))
       (mkState os_demo [] [])).1 = Ok ("hi" +:+ nl).
Proof.
  apply (run_fail_soft sh_echo "echo hi" (Some ("output", "old.txt"))
           (mkState os_demo [] []) 3 "boom").
  - reflexivity.
  - exact os_demo_old.
  - reflexivity.
Defined.

Lemma run_capture_overwrites_witness :
  file_content ("output", "old.txt")
    (st_os (run sh_fail "false" (Some ("output", "old.txt")) (mkState os_demo [] [])).2)
  = Some "".
Proof.
  apply (run_capture_overwrites sh_fail "false" ("output", "old.txt")
           (mkState os_demo [] []) "").
  - reflexivity.
  - reflexivity.
  - exact os_demo_old.
Defined.

(** A command that prints a byte that is not UTF-8: [run] raises, with
    exit status 3 or any other, and the capture file keeps what it held. *)
Example run_binary_output :
  let '(r, s') := run sh_binary "printf '\377'; exit 3" (Some ("output", "old.txt"))
                      (mkState os_demo [] []) in
  r = Raise UnicodeDecodeError /\
  file_content ("output", "old.txt") (st_os s') = Some "stale".
Proof. vm_compute. done. Qed.

(** Line endings: the capture file receives the text, in which a carriage
    return and line feed have become one line feed. *)
Example run_crlf_output :
  let sh_crlf := fun (_ : string) o => (mkProc 0 ("a" +:+ String CR (String LF "b")) "", o) in
  let '(r, s') := run sh_crlf "unix2dos" (Some ("output", "old.txt"))
                      (mkState os_demo [] []) in
  r = Ok ("a" +:+ String LF "b") /\
  file_content ("output", "old.txt") (st_os s') = Some ("a" +:+ String LF "b").
Proof. vm_compute. done. Qed.

(** ** The task pool *)

Section Pool.

Variable sh : string -> OS -> Proc * OS.

Lemma choose_spec bound s :
  (0 < bound)%nat ->
  exists i tp, choose bound s = (Ok i, mkState (st_os s) (st_log s) tp) /\ (i < bound)%nat.
Proof.
  intros Hb. unfold choose. destruct s as [o l [|c tp]]; simpl.
  - exists 0%nat, []. split; [done|lia].
  - exists (c mod bound)%nat, tp. split; [done|]. apply Nat.mod_upper_bound. lia.
Qed.

(** A choice reads the tape and nothing else. *)
Lemma choose_state bound s :
  exists i tp, choose bound s = (Ok i, mkState (st_os s) (st_log s) tp).
Proof. unfold choose. destruct s as [o l [|c tp]]; simpl; eauto. Qed.

Lemma run_outcome cmd outfile s :
  (exists txt s', run sh cmd outfile s = (Ok txt, s') /\
     st_log s' = st_log s ++ run_events cmd outfile) \/
  (exists e s', run sh cmd outfile s = (Raise e, s') /\
     st_log s' = st_log s ++ [EvExec cmd]).
Proof.
  destruct (subprocess_run_outcome sh cmd s) as [(text & Hnul & Hdec & Hrun)|(e & o & Hrun)].
  - unfold run, bind. rewrite Hrun, (stdout_decoded _ text Hdec).
    destruct outfile as [p|].
    + destruct (write_file_outcome p text
                  (mkState (sh cmd (st_os s)).2 (st_log s ++ [EvExec cmd]) (st_tape s)))
        as [(s' & Hw & Hl & _)|[e He]]; [by eapply decode_text_valid| |].
      * left. rewrite Hw. unfold ret. eexists _, _. split; [done|].
        rewrite Hl. simpl. by rewrite <- app_assoc.
      * right. rewrite He. eauto.
    + left. unfold ret. eauto.
  - right. unfold run, bind. rewrite Hrun. eauto.
Qed.

Lemma task_outcome name cmd outfile s :
  exists fut s', task sh name cmd outfile s = (fut, s') /\
    st_log s' = st_log s ++ [] ++
      (match fut with Ok _ => run_events cmd outfile | Raise _ => [EvExec cmd] end) /\
    match fut with Ok (n, _) => n = name | Raise _ => True end.
Proof.
  unfold task, bind, time_time, ret.
  destruct (run_outcome cmd outfile s) as [(txt & s' & -> & Hl)|(e & s' & -> & Hl)];
    eexists _, _; (split; [reflexivity|]); simpl; eauto.
Qed.

Lemma pool_run_S w fuel t0 (pending0 : list Task) s :
  pool_run sh w (S fuel) (t0 :: pending0) s =
  bind (choose (Nat.min w (length (t0 :: pending0)))) (fun i =>
    match (t0 :: pending0) !! i with
    | None => ret []
    | Some (name, cmd, outfile) =>
        bind (attempt (task sh name cmd outfile)) (fun fut =>
        bind (pool_run sh w fuel (delete i (t0 :: pending0))) (fun rest =>
        ret (fut :: rest)))
    end) s.
Proof. reflexivity. Qed.

Lemma pool_run_step workers fuel (pending : list Task) s i tp name cmd outfile :
  pending <> [] ->
  choose (Nat.min workers (length pending)) s
    = (Ok i, mkState (st_os s) (st_log s) tp) ->
  pending !! i = Some (name, cmd, outfile) ->
  pool_run sh workers (S fuel) pending s =
  let '(fut, s1) := task sh name cmd outfile (mkState (st_os s) (st_log s) tp) in
  match pool_run sh workers fuel (delete i pending) s1 with
  | (Ok rest, s2) => (Ok (fut :: rest), s2)
  | (Raise e, s2) => (Raise e, s2)
  end.
Proof.
  intros Hne Hch Ht. destruct pending as [|t0 pending0]; [done|].
  rewrite pool_run_S. set (pending := t0 :: pending0) in *.
  unfold bind at 1. rewrite Hch, Ht. unfold bind, attempt, ret.
  destruct (task sh name cmd outfile _) as [fut s1].
  by destruct (pool_run sh workers fuel (delete i pending) s1) as [[rest|e] s2].
Qed.

(** The pool runs every task once: [ran] lists the tasks in completion
    order, each with its future and with what it added to the log. *)
Lemma pool_run_trace workers fuel (pending : list Task) s :
  (0 < workers)%nat -> (length pending <= fuel)%nat ->
  exists (ran : list Finished) s',
    pool_run sh workers fuel pending s = (Ok (ran.*1.*2), s') /\
    ran.*1.*1 ≡ₚ pending /\
    Forall finished_ok ran /\
    st_log s' = st_log s ++ concat (ran.*2).
Proof.
  intros Hw. revert pending s.
  induction fuel as [|fuel IH]; intros pending s Hlen.
  - destruct pending; [|simpl in Hlen; lia].
    exists [], s. simpl. by rewrite app_nil_r.
  - destruct pending as [|t0 pending0].
    { exists [], s. simpl. by rewrite app_nil_r. }
    set (pending := t0 :: pending0) in *.
    destruct (choose_spec (Nat.min workers (length pending)) s)
      as (i & tp & Hch & Hi); [simpl; lia|].
    destruct (lookup_lt_is_Some_2 pending i) as [[[name cmd] outfile] Ht]; [lia|].
    destruct (task_outcome name cmd outfile (mkState (st_os s) (st_log s) tp))
      as (fut & s1 & Htask & Hlog1 & Hname).
    destruct (IH (delete i pending) s1) as (ran & s2 & Hrec & Hperm & Hok & Hlog2).
    { rewrite length_delete by eauto. simpl in *. lia. }
    exists (((name, cmd, outfile), fut,
             match fut with Ok _ => run_events cmd outfile | Raise _ => [EvExec cmd] end)
            :: ran), s2.
    split; [|split; [|split]].
    + rewrite (pool_run_step workers fuel pending s i tp name cmd outfile);
        [|done|done|done].
      by rewrite Htask, Hrec.
    + simpl. rewrite Hperm. symmetry. by apply delete_Permutation.
    + constructor; [|done]. simpl. destruct fut as [[n d]|e].
      * left. exists d. by subst n.
      * right. eauto.
    + rewrite Hlog2, Hlog1. simpl. by rewrite <- app_assoc.
Qed.

Lemma shuffle_S {A} fuel x0 (l0 : list A) s :
  shuffle (S fuel) (x0 :: l0) s =
  bind (choose (length (x0 :: l0))) (fun i =>
    match (x0 :: l0) !! i with
    | None => ret (x0 :: l0)
    | Some x => bind (shuffle fuel (delete i (x0 :: l0))) (fun rest => ret (x :: rest))
    end) s.
Proof. reflexivity. Qed.

(** Shuffling reorders the list and reads the tape; it does nothing
    else. *)
Lemma shuffle_spec {A} fuel : forall (l : list A) s,
  exists l' tp,
    shuffle fuel l s = (Ok l', mkState (st_os s) (st_log s) tp) /\ l' ≡ₚ l.
Proof.
  induction fuel as [|fuel IH]; intros l s.
  { exists l, (st_tape s). by destruct s. }
  destruct l as [|x0 l0].
  { exists [], (st_tape s). by destruct s. }
  rewrite shuffle_S. set (l := x0 :: l0) in *.
  destruct (choose_state (length l) s) as (i & tp & Hch).
  unfold bind at 1. rewrite Hch.
  destruct (l !! i) as [x|] eqn:Hi; [|by exists l, tp].
  destruct (IH (delete i l) (mkState (st_os s) (st_log s) tp)) as (rest & tp' & Hrec & Hperm).
  unfold bind. rewrite Hrec. exists (x :: rest), tp'. split; [done|].
  rewrite Hperm. symmetry. by apply delete_Permutation.
Qed.

Lemma shuffle_fmap {A B} (f : A -> B) fuel : forall (l l' : list A) s s',
  shuffle fuel l s = (Ok l', s') ->
  shuffle fuel (f <$> l) s = (Ok (f <$> l'), s').
Proof.
  induction fuel as [|fuel IH]; intros l l' s s' Hrun.
  { simpl in *. unfold ret in *. by injection Hrun as <- <-. }
  destruct l as [|x0 l0].
  { simpl in *. unfold ret in *. by injection Hrun as <- <-. }
  rewrite fmap_cons, shuffle_S, <- fmap_cons. rewrite shuffle_S in Hrun.
  set (l := x0 :: l0) in *. rewrite length_fmap.
  unfold bind at 1. unfold bind at 1 in Hrun.
  destruct (choose (length l) s) as [[i|e] s0]; [|done].
  rewrite list_lookup_fmap.
  destruct (l !! i) as [x|] eqn:Hi; cbn [fmap option_fmap option_map].
  - unfold bind in Hrun |- *.
    destruct (shuffle fuel (delete i l) s0) as [[rest|e] s1] eqn:Hrest; [|done].
    rewrite <- list_fmap_delete, (IH _ _ _ _ Hrest).
    unfold ret in *. by injection Hrun as <- <-.
  - unfold ret in *. by injection Hrun as <- <-.
Qed.

(** [as_completed] yields every future once, in an order that depends on
    the tape alone. *)
Lemma as_completed_spec {A} (l : list A) s :
  exists l' tp,
    as_completed l s = (Ok l', mkState (st_os s) (st_log s) tp) /\ l' ≡ₚ l.
Proof.
  destruct l as [|x0 l0].
  { exists [], (st_tape s). by destruct s. }
  unfold as_completed. set (l := x0 :: l0).
  destruct (choose_state (S (length l)) s) as (k & tp & Hch).
  unfold bind at 1. rewrite Hch.
  destruct (shuffle_spec k (take k l) (mkState (st_os s) (st_log s) tp))
    as (early & tp' & Hsh & Hperm).
  unfold bind. rewrite Hsh. exists (early ++ drop k l), tp'. split; [done|].
  by rewrite Hperm, take_drop.
Qed.

Lemma as_completed_fmap {A B} (f : A -> B) (l l' : list A) s s' :
  as_completed l s = (Ok l', s') ->
  as_completed (f <$> l) s = (Ok (f <$> l'), s').
Proof.
  destruct l as [|x0 l0].
  { simpl. unfold ret. intros H. by injection H as <- <-. }
  rewrite fmap_cons. unfold as_completed. rewrite <- fmap_cons.
  set (l := x0 :: l0). rewrite length_fmap.
  unfold bind at 1 3.
  destruct (choose (S (length l)) s) as [[k|e] s0]; [|done].
  unfold bind. rewrite <- fmap_take.
  destruct (shuffle k (take k l) s0) as [[early|e] s1] eqn:Hsh; [|done].
  rewrite (shuffle_fmap f _ _ _ _ _ Hsh). unfold ret. intros H. injection H as <- <-.
  by rewrite fmap_app, fmap_drop.
Qed.

(** The executor: [ran] lists the tasks as they completed, which is the
    order of the log, and [fin] lists them as [as_completed] yields their
    futures. *)
Lemma executor_run_trace workers fuel (pending : list Task) s :
  (0 < workers)%nat -> (length pending <= fuel)%nat ->
  exists (ran fin : list Finished) s1 s',
    pool_run sh workers fuel pending s = (Ok (ran.*1.*2), s1) /\
    executor_run sh workers fuel pending s = (Ok (fin.*1.*2), s') /\
    st_os s' = st_os s1 /\ st_log s' = st_log s1 /\
    fin ≡ₚ ran /\
    ran.*1.*1 ≡ₚ pending /\
    Forall finished_ok ran /\
    st_log s' = st_log s ++ concat (ran.*2).
Proof.
  intros Hw Hlen.
  destruct (pool_run_trace workers fuel pending s Hw Hlen)
    as (ran & s1 & Hrun & Hperm & Hok & Hlog).
  destruct (as_completed_spec ran s1) as (fin & tp & Has & Hfin).
  exists ran, fin, s1, (mkState (st_os s1) (st_log s1) tp).
  split; [done|]. split; [|done].
  unfold executor_run, bind. rewrite Hrun.
  apply (as_completed_fmap fst) in Has. by apply (as_completed_fmap snd) in Has.
Qed.

Lemma collect_spec (futures : list (Res (string * Z))) acc s :
  collect futures acc s =
  (match first_exn futures with
   | Some e => Raise e
   | None => Ok (acc ++ returned futures)
   end, s).
Proof.
  revert acc. induction futures as [|[[n d]|e] futures IH]; intros acc; simpl.
  - by rewrite app_nil_r.
  - rewrite IH. unfold returned. simpl. by rewrite <- app_assoc.
  - done.
Qed.

Lemma first_exn_None {A} (futures : list (Res A)) :
  first_exn futures = None <-> Forall (fun r => is_ok r = true) futures.
Proof.
  induction futures as [|[a|e] futures IH]; simpl.
  - split; [constructor|done].
  - rewrite IH. split; [by constructor|]. by intros [_ ?]%Forall_cons.
  - split; [done|]. by intros [? _]%Forall_cons.
Qed.

Lemma returned_names (fin : list Finished) :
  Forall finished_ok fin -> first_exn fin.*1.*2 = None ->
  (returned fin.*1.*2).*1 = task_name <$> fin.*1.*1.
Proof.
  induction 1 as [|[[t fut] evs] fin Hx _ IH]; [done|].
  rewrite !fmap_cons. cbn [fst snd first_exn].
  destruct Hx as [(d & -> & _)|(e & -> & _)]; [|done].
  intros Hnone. unfold returned in *. cbn [omap list_omap]. rewrite fmap_cons.
  f_equal. by apply IH.
Qed.

(** *** Runs that keep an invariant of the system *)

Section Safety.

Variable I : OS -> Prop.

Lemma safe_bind {A B} (m : M A) (k : A -> M B) :
  safe_in I m -> (forall x, safe_in I (k x)) -> safe_in I (bind m k).
Proof.
  intros Hm Hk s Hs. unfold bind. destruct (Hm s Hs) as [Hs1 Hok].
  destruct (m s) as [[x|e] s1]; simpl in *; [|done]. by apply Hk.
Qed.

Lemma safe_quiet {A} (m : M A) :
  (forall s, st_os (m s).2 = st_os s /\ is_ok (m s).1 = true) -> safe_in I m.
Proof. intros Hm s Hs. destruct (Hm s) as [-> ?]. done. Qed.

Lemma safe_run cmd outfile :
  cmd_safe sh I cmd -> writable I outfile -> safe_in I (run sh cmd outfile).
Proof.
  intros [Hnul Hcmd] Hw s Hs. destruct (Hcmd _ Hs) as [Hs1 [text Hdec]].
  destruct outfile as [p|].
  - destruct (Hw p eq_refl _ Hs1) as (d & Hd & Hn & Hkeep).
    rewrite (run_capture_ok sh cmd p s d text Hnul Hdec Hd Hn). simpl.
    split; [|done]. apply Hkeep. by eapply decode_text_valid.
  - by rewrite (run_no_capture sh cmd s text Hnul Hdec).
Qed.

Lemma safe_task name cmd outfile :
  cmd_safe sh I cmd -> writable I outfile -> safe_in I (task sh name cmd outfile).
Proof.
  intros Hc Hw s Hs. destruct (safe_run cmd outfile Hc Hw s Hs) as [Hs1 Hok].
  unfold task, bind, time_time, ret.
  by destruct (run sh cmd outfile s) as [[txt|e] s1].
Qed.

Lemma safe_pool_run workers fuel : forall (pending : list Task) s,
  (0 < workers)%nat ->
  Forall (fun t => cmd_safe sh I (task_cmd t) /\ writable I (task_outfile t)) pending ->
  I (st_os s) ->
  I (st_os (pool_run sh workers fuel pending s).2) /\
  forall futures, (pool_run sh workers fuel pending s).1 = Ok futures ->
    first_exn futures = None.
Proof.
  induction fuel as [|fuel IH]; intros pending s Hw Hall Hs.
  { simpl. split; [done|]. intros ? H. by injection H as <-. }
  destruct pending as [|t0 pending0].
  { simpl. split; [done|]. intros ? H. by injection H as <-. }
  set (pending := t0 :: pending0) in *.
  destruct (choose_spec (Nat.min workers (length pending)) s)
    as (i & tp & Hch & Hi); [simpl; lia|].
  destruct (lookup_lt_is_Some_2 pending i) as [[[name cmd] outfile] Ht]; [lia|].
  rewrite (pool_run_step workers fuel pending s i tp name cmd outfile);
    [|done|done|done].
  assert (cmd_safe sh I cmd /\ writable I outfile) as [Hc Hwr].
  { rewrite Forall_forall in Hall. apply (Hall (name, cmd, outfile)).
    by eapply list_elem_of_lookup_2. }
  destruct (safe_task name cmd outfile Hc Hwr (mkState (st_os s) (st_log s) tp) Hs)
    as [Hs1 Hok1].
  destruct (task sh name cmd outfile _) as [[r|e] s1]; [|done]. simpl in Hs1.
  destruct (IH (delete i pending) s1 Hw) as [Hs2 Hok2]; [by apply Forall_delete|done|].
  destruct (pool_run sh workers fuel (delete i pending) s1) as [[rest|e] s2];
    simpl in *.
  - split; [done|]. intros ? H. injection H as <-. simpl. by apply Hok2.
  - done.
Qed.

Lemma safe_run_parallel (tasks : list Task) workers :
  (1 <= workers)%Z ->
  Forall (fun t => cmd_safe sh I (task_cmd t) /\ writable I (task_outfile t)) tasks ->
  safe_in I (run_parallel sh tasks workers).
Proof.
  intros Hw Hall s Hs. unfold run_parallel. destruct (workers <=? 0)%Z eqn:E; [lia|].
  unfold bind.
  destruct (executor_run_trace (Z.to_nat workers) (length tasks) tasks s)
    as (ran & fin & s1 & s' & Hpool & Hrun & Hos & _ & Hfin & _); [lia|done|].
  destruct (safe_pool_run (Z.to_nat workers) (length tasks) tasks s ltac:(lia) Hall Hs)
    as [Hs1 Hnone].
  rewrite Hpool in Hs1, Hnone. simpl in Hs1. specialize (Hnone _ eq_refl).
  rewrite Hrun, collect_spec.
  assert (first_exn fin.*1.*2 = None) as ->.
  { apply first_exn_None. rewrite Hfin. by apply first_exn_None. }
  simpl. by rewrite Hos.
Qed.

End Safety.

Lemma can_capture_write outfile o (p : path) d x :
  fs o !! p.1 = Some d -> can_capture outfile o ->
  can_capture outfile (set_fs (<[p.1 := <[p.2 := File x]> d]> (fs o)) o).
Proof.
  intros Hd. destruct outfile as [q|]; [|done]. intros (dq & Hdq & Hnq). simpl.
  destruct (decide (q.1 = p.1)) as [E|E].
  - rewrite E, lookup_insert_eq. eexists. split; [done|].
    rewrite E, Hd in Hdq. injection Hdq as <-.
    destruct (decide (q.2 = p.2)) as [E2|E2].
    + by rewrite E2, lookup_insert_eq.
    + by rewrite lookup_insert_ne.
  - rewrite lookup_insert_ne by done. eauto.
Qed.

Lemma capturable_writable (tasks : list Task) t :
  t ∈ tasks -> writable (capturable tasks) (task_outfile t).
Proof.
  intros Ht p Hp o Ho.
  assert (can_capture (Some p) o) as (d & Hd & Hn).
  { unfold capturable in Ho. rewrite Forall_forall in Ho.
    rewrite <- Hp. by apply Ho. }
  exists d. split; [done|]. split; [done|]. intros text _.
  unfold capturable in *. eapply Forall_impl; [exact Ho|].
  intros t' Ht'. by apply can_capture_write.
Qed.

(** C1. With at least one worker, whatever the completion order and the
    order in which the futures are yielded (the tape of the state): a run of
    [run_parallel] that returns, returns exactly [N] results whose names are
    the submitted names up to order, so that each name of a task list with
    distinct names occurs exactly once.  It does return whenever no command
    line has a NUL character, every capture location can be opened, no
    command of the pool changes that, and every command prints text that
    decodes.  And for an empty task list it returns the empty list and
    leaves the state alone. *)
Theorem run_parallel_results (tasks : list Task) (workers : Z) (s : State) :
  (1 <= workers)%Z ->
  (forall results s', run_parallel sh tasks workers s = (Ok results, s') ->
     length results = length tasks /\
     results.*1 ≡ₚ task_name <$> tasks /\
     (NoDup (task_name <$> tasks) ->
      forall t, t ∈ tasks ->
        count_occ string_dec (results.*1) (task_name t) = 1%nat)) /\
  (Forall (fun t => has_nul (task_cmd t) = false) tasks ->
   sh_serves sh tasks -> capturable tasks (st_os s) ->
     exists results s', run_parallel sh tasks workers s = (Ok results, s')) /\
  (tasks = [] -> run_parallel sh tasks workers s = (Ok [], s)).
Proof.
  intros Hw.
  destruct (executor_run_trace (Z.to_nat workers) (length tasks) tasks s)
    as (ran & fin & s1 & s2 & Hpool & Hrun & Hos & _ & Hfin & Hperm & Hok & Hlog);
    [lia|done|].
  assert (Forall finished_ok fin) as Hok' by (by rewrite Hfin).
  split; [|split].
  - unfold run_parallel. destruct (workers <=? 0)%Z eqn:E; [lia|]. unfold bind.
    rewrite Hrun, collect_spec. intros results s' Hret.
    destruct (first_exn fin.*1.*2) eqn:Hnone; [discriminate Hret|].
    injection Hret as <- <-. simpl.
    assert ((returned fin.*1.*2).*1 ≡ₚ task_name <$> tasks) as Hp.
    { by rewrite (returned_names fin Hok' Hnone), Hfin, Hperm. }
    split; [|split; [done|]].
    + rewrite <- (length_fmap fst), Hp. by rewrite length_fmap.
    + intros Hnd t Ht.
      rewrite (Permutation_count_occ string_dec) in Hp. rewrite Hp.
      apply NoDup_count_occ'; [by apply NoDup_ListNoDup|].
      apply list_elem_of_In, list_elem_of_fmap. eauto.
  - intros Hnul Hserve Hcap.
    assert (safe_in (capturable tasks) (run_parallel sh tasks workers)) as Hsafe.
    { apply safe_run_parallel; [done|]. apply Forall_forall. intros t Ht. split.
      - split; [by rewrite Forall_forall in Hnul; apply Hnul|].
        intros o Ho. by apply Hserve.
      - by apply capturable_writable. }
    destruct (Hsafe s Hcap) as [_ Hret].
    destruct (run_parallel sh tasks workers s) as [[results|e] s']; [eauto|done].
  - intros ->. unfold run_parallel. by destruct (workers <=? 0)%Z eqn:E; [lia|].
Qed.

(** C9. All the tasks run and leave a future each; if any of the futures
    holds an exception, [run_parallel] raises the first of them in the
    order in which [as_completed] yields the futures, and returns no
    results.  A task leaves an exception only after [subprocess.run] has
    been called on its command: a non-zero exit status alone never does. *)
Theorem run_parallel_reraises (tasks : list Task) (workers : Z) (s : State) :
  (1 <= workers)%Z ->
  exists (fin : list Finished) s1,
    executor_run sh (Z.to_nat workers) (length tasks) tasks s = (Ok (fin.*1.*2), s1) /\
    fin.*1.*1 ≡ₚ tasks /\
    Forall finished_ok fin /\
    forall e, Raise e ∈ fin.*1.*2 ->
      exists e', first_exn (fin.*1.*2) = Some e' /\ Raise e' ∈ fin.*1.*2 /\
        run_parallel sh tasks workers s = (Raise e', s1).
Proof.
  intros Hw.
  destruct (executor_run_trace (Z.to_nat workers) (length tasks) tasks s)
    as (ran & fin & s0 & s1 & _ & Hrun & _ & _ & Hfin & Hperm & Hok & _); [lia|done|].
  exists fin, s1. split; [done|]. split; [by rewrite Hfin|]. split; [by rewrite Hfin|].
  intros e He.
  assert (exists e', first_exn (fin.*1.*2) = Some e' /\ Raise e' ∈ fin.*1.*2)
    as (e' & He' & Hin).
  { clear -He. induction (fin.*1.*2) as [|[a|e0] l IH]; simpl.
    - by apply elem_of_nil in He.
    - apply elem_of_cons in He as [?|He]; [done|].
      destruct (IH He) as (e' & ? & ?). exists e'. split; [done|]. by right.
    - exists e0. split; [done|]. by left. }
  exists e'. split; [done|split; [done|]].
  unfold run_parallel. destruct (workers <=? 0)%Z eqn:E; [lia|].
  unfold bind. by rewrite Hrun, collect_spec, He'.
Qed.

End Pool.

Lemma sh_echo_serves : sh_serves sh_echo echo_tasks.
Proof.
  intros t o Ht Ho. split.
  - unfold sh_echo. destruct (String.prefix "echo " (task_cmd t)); exact Ho.
  - unfold echo_tasks in Ht. rewrite !elem_of_cons in Ht.
    destruct Ht as [->|[->|[->|Ht]]]; [by eexists..|by apply elem_of_nil in Ht].
Qed.

Lemma echo_tasks_no_nul : Forall (fun t => has_nul (task_cmd t) = false) echo_tasks.
Proof. by repeat constructor. Qed.

Lemma os_demo_capturable : capturable echo_tasks os_demo.
Proof.
  repeat (apply Forall_cons_2;
          [exists {[ "old.txt" := File "stale" ]}; split; [reflexivity|];
           by rewrite lookup_singleton_ne|]).
  apply Forall_nil_2.
Qed.

Lemma run_parallel_results_witness :
  exists results s',
    run_parallel sh_echo echo_tasks 2 (mkState os_demo [] [1; 1; 0]) = (Ok results, s') /\
    length results = 3%nat.
Proof.
  destruct (run_parallel_results sh_echo echo_tasks 2 (mkState os_demo [] [1; 1; 0]))
    as (Hres & Hret & _); [lia|].
  destruct (Hret echo_tasks_no_nul sh_echo_serves os_demo_capturable)
    as (results & s' & Hrun).
  exists results, s'. split; [exact Hrun|].
  destruct (Hres results s' Hrun) as [Hlen _]. exact Hlen.
Defined.

Lemma run_parallel_reraises_witness :
  exists (fin : list Finished) s1,
    executor_run sh_echo 2 2 stray_tasks (mkState os_demo [] [1]) = (Ok (fin.*1.*2), s1) /\
    fin.*1.*1 ≡ₚ stray_tasks.
Proof.
  destruct (run_parallel_reraises sh_echo stray_tasks 2 (mkState os_demo [] [1]))
    as (fin & s1 & H1 & H2 & _).
  - lia.
  - exists fin, s1. split; [exact H1|exact H2].
Defined.

(** The scenario of three [echo] tasks on two workers: the task that was
    started second finishes first here. *)
Example echo_tasks_run :
  let '(r, s') := run_parallel sh_echo echo_tasks 2 (mkState os_demo [] [1; 1; 0]) in
  r = Ok [("B", 1%Z); ("C", 1%Z); ("A", 1%Z)] /\
  file_content ("output", "A.txt") (st_os s') = Some ("1" +:+ nl) /\
  file_content ("output", "B.txt") (st_os s') = Some ("2" +:+ nl) /\
  file_content ("output", "C.txt") (st_os s') = Some ("3" +:+ nl).
Proof. vm_compute. done. Qed.

(** The first task cannot open its capture file: the pool raises, though
    the second task has run and written its file. *)
Example stray_tasks_run :
  let '(r, s') := run_parallel sh_echo stray_tasks 2 (mkState os_demo [] [1]) in
  r = Raise (FileNotFoundError ("missing", "A.txt")) /\
  file_content ("output", "B.txt") (st_os s') = Some ("2" +:+ nl) /\
  st_log s' = [EvExec "echo 2"; EvWrite ("output", "B.txt"); EvExec "echo 1"].
Proof. vm_compute. done. Qed.

(** One worker runs the tasks in submission order, and still the results
    can come in another order: here all three futures have finished when
    the loop over [as_completed] begins, and the set gives them back as
    C, A, B. *)
Example one_worker_yield_order :
  let '(r, s') := run_parallel sh_echo echo_tasks 1
                    (mkState os_demo [] [0; 0; 0; 3; 2]) in
  r = Ok [("C", 1%Z); ("A", 1%Z); ("B", 1%Z)] /\
  execs (st_log s') = ["echo 1"; "echo 2"; "echo 3"].
Proof. vm_compute. done. Qed.

(** A task whose command prints a byte that is not UTF-8 raises inside
    the pool, whatever its exit status, and the pool raises with it. *)
Example binary_task_run :
  let '(r, s') := run_parallel sh_binary echo_tasks 2 (mkState os_demo [] []) in
  r = Raise UnicodeDecodeError /\
  execs (st_log s') = ["echo 1"; "echo 2"; "echo 3"] /\
  file_content ("output", "A.txt") (st_os s') = None.
Proof. vm_compute. done. Qed.

(** ** The dependency bootstrap *)

Section Bootstrap.

Variable sh : string -> OS -> Proc * OS.
Variable GO_BIN : string.

Lemma calls_app l1 l2 : calls (l1 ++ l2) = calls l1 ++ calls l2.
Proof. unfold calls. apply omap_app. Qed.

Lemma bootstrap_app es1 es2 o c1 o1 c2 o2 :
  bootstrap sh es1 o c1 o1 -> bootstrap sh es2 o1 c2 o2 ->
  bootstrap sh (es1 ++ es2) o (c1 ++ c2) o2.
Proof.
  induction 1 as [|chk inst rest o ca oa cb ob Hstep Hrest IH]; intros H2; [done|].
  simpl. rewrite <- app_assoc. econstructor; eauto.
Qed.

Lemma ensure_body chk inst msg1 msg2 :
  ensures sh chk inst
    (rc <- subprocess_call sh chk ;;
     if negb (rc =? 0)%Z then
       print msg1 ;; subprocess_call sh inst ;; ret tt
     else print msg2).
Proof.
  intros s. unfold bind, subprocess_call, print, emit, ret.
  destruct (sh chk (st_os s)) as [p o1] eqn:E1.
  destruct (returncode p =? 0)%Z eqn:Erc; simpl.
  - eexists _, [EvCall chk; EvPrint msg2]. simpl. split; [done|].
    split; [by rewrite <- app_assoc|].
    eapply ensure_present; [done|lia].
  - destruct (sh inst o1) as [q o2] eqn:E2.
    eexists _, [EvCall chk; EvPrint msg1; EvCall inst]. split; [done|]. simpl.
    split; [by rewrite <- !app_assoc|].
    eapply ensure_missing; [done|lia|done].
Qed.

Lemma check_dep_ensures dep :
  ensures sh (dep_entry dep).1 (dep_entry dep).2 (check_dep sh dep).
Proof. apply ensure_body. Qed.

Lemma check_tool_ensures tool :
  ensures sh (tool_entry GO_BIN tool).1 (tool_entry GO_BIN tool).2
          (check_tool sh GO_BIN tool).
Proof. apply ensure_body. Qed.

Lemma for_ensures {A} (entry : A -> string * string) (body : A -> M unit) xs :
  (forall x, ensures sh (entry x).1 (entry x).2 (body x)) ->
  forall s, exists s' new,
    for_ xs body s = (Ok tt, s') /\ st_log s' = st_log s ++ new /\
    bootstrap sh (entry <$> xs) (st_os s) (calls new) (st_os s').
Proof.
  intros Hbody. induction xs as [|x xs IH]; intros s; simpl.
  - exists s, []. rewrite app_nil_r. split; [done|split; [done|constructor]].
  - destruct (Hbody x s) as (s1 & new1 & Hx & Hl1 & Hs1).
    destruct (IH s1) as (s2 & new2 & Hxs & Hl2 & Hs2).
    exists s2, (new1 ++ new2). unfold bind. rewrite Hx, Hxs.
    split; [done|]. split; [by rewrite Hl2, Hl1, app_assoc|].
    rewrite calls_app. destruct (entry x) as [chk inst] eqn:E. simpl in *.
    econstructor; eauto.
Qed.

(** C8. For any content of [tools.yaml] and any shell, [check_tools]
    returns normally and is the ensure-present pass over the bootstrap list:
    every entry's check is called, in order; the install command of an entry
    is called exactly when its check returned a non-zero status; and the
    status of an install command is ignored, the next entry is checked all
    the same. *)
Theorem check_tools_ensures (data : ToolsYaml) (s : State) :
  exists s' new,
    check_tools sh GO_BIN data s = (Ok tt, s') /\
    st_log s' = st_log s ++ new /\
    bootstrap sh (entries GO_BIN data) (st_os s) (calls new) (st_os s').
Proof.
  unfold check_tools, entries, bind.
  destruct (for_ensures dep_entry (check_dep sh)
              (default [] (system_dependencies data)) check_dep_ensures s)
    as (s1 & new1 & H1 & Hl1 & Hb1).
  destruct (for_ensures (tool_entry GO_BIN) (check_tool sh GO_BIN)
              (tools data) check_tool_ensures s1)
    as (s2 & new2 & H2 & Hl2 & Hb2).
  exists s2, (new1 ++ new2). rewrite H1, H2. split; [done|].
  split; [by rewrite Hl2, Hl1, app_assoc|].
  rewrite calls_app. by eapply bootstrap_app.
Qed.

End Bootstrap.

(** ** The report builder *)

Section Report.

Variable bufsize : nat.

Lemma out_dir_content s d n :
  out_dir s = Some d ->
  file_content (OUTPUT, n) (st_os s) =
  match d !! n with Some (File bytes) => Some bytes | _ => None end.
Proof. unfold out_dir, file_content. simpl. by intros ->. Qed.

Lemma sorted_elem_of (names : list string) n : n ∈ sorted names <-> n ∈ names.
Proof. unfold sorted. by rewrite merge_sort_Permutation. Qed.

Lemma listdir_out s d :
  out_dir s = Some d -> listdir OUTPUT s = (Ok ((map_to_list d).*1), s).
Proof. unfold out_dir, listdir. intros Hd. by rewrite (dir_entries_key _ _ _ Hd). Qed.

Lemma elem_of_listing (d : gmap string Node) n :
  n ∈ (map_to_list d).*1 <-> is_Some (d !! n).
Proof.
  rewrite list_elem_of_fmap. split.
  - intros ([k v] & -> & Hin). apply elem_of_map_to_list in Hin. eauto.
  - intros [v Hv]. exists (n, v). split; [done|]. by apply elem_of_map_to_list.
Qed.

(** *** What can be encoded *)

Lemma encode_ok text s : utf8_valid text = true -> encode text s = (Ok text, s).
Proof. unfold encode. by intros ->. Qed.

Lemma section_header_valid n :
  utf8_valid n = true -> utf8_valid (section_header n) = true.
Proof.
  intros Hn. unfold section_header.
  apply utf8_valid_app; [done|]. apply utf8_valid_app; [done|].
  apply utf8_valid_app; [done|]. done.
Qed.

Lemma html_section_valid n t :
  utf8_valid n = true -> utf8_valid t = true -> utf8_valid (html_section n t) = true.
Proof.
  intros Hn Ht. unfold html_section.
  apply utf8_valid_app; [done|]. apply utf8_valid_app; [done|].
  apply utf8_valid_app; [done|]. apply utf8_valid_app; [done|].
  apply utf8_valid_app; [done|]. apply utf8_valid_app; [done|].
  apply utf8_valid_app; [done|]. apply utf8_valid_app; [done|]. done.
Qed.

Lemma html_item_section content file :
  html_item content file = html_section file (default "" (content !! file)).
Proof. reflexivity. Qed.

Lemma render_valid (files : list string) (content : gmap string string) :
  Forall (fun n => utf8_valid n = true) files ->
  map_Forall (fun _ t => utf8_valid t = true) content ->
  utf8_valid (render files content) = true.
Proof.
  intros Hfiles Hcontent. unfold render.
  apply utf8_valid_app; [by vm_compute|]. apply utf8_valid_app; [|by vm_compute].
  apply utf8_valid_concat, Forall_fmap. eapply Forall_impl; [exact Hfiles|].
  intros n Hn. simpl. rewrite html_item_section. apply html_section_valid; [done|].
  destruct (content !! n) as [t|] eqn:Ht; [|done]. exact (Hcontent n t Ht).
Qed.

Lemma clean_insert d n bytes :
  clean d -> utf8_valid n = true -> utf8_valid bytes = true ->
  clean (<[n := File bytes]> d).
Proof. intros Hd Hn Hb. apply map_Forall_insert_2; [eauto|done]. Qed.

Lemma clean_lookup d n x :
  clean d -> d !! n = Some x ->
  utf8_valid n = true /\ exists bytes, x = File bytes /\ utf8_valid bytes = true.
Proof. intros Hd Hn. exact (Hd n x Hn). Qed.

Lemma clean_not_folder d n : clean d -> d !! n <> Some Folder.
Proof.
  intros Hd Hn. destruct (clean_lookup d n _ Hd Hn) as (_ & b & Hb & _). discriminate Hb.
Qed.

(** *** The text report, on a clean directory *)

Lemma flush_report disk data d s :
  out_dir s = Some (<["report.txt" := File disk]> d) ->
  out_dir (set_os (flush_to (OUTPUT, "report.txt") data (st_os s)) s)
  = Some (<["report.txt" := File (disk +:+ data)]> d).
Proof.
  unfold out_dir, flush_to. simpl. intros ->. simpl.
  rewrite lookup_insert_eq. simpl. rewrite lookup_insert_eq.
  by rewrite insert_insert_eq.
Qed.

Lemma f_write_inv W d f s data :
  report_inv W d f s -> utf8_valid data = true ->
  exists f' s',
    f_write bufsize f data s = (Ok f', s') /\
    report_inv (W +:+ data) d f' s' /\
    st_log s' = st_log s /\ st_tape s' = st_tape s.
Proof.
  intros (Hp & disk & Hdir & Hvd & Hvb & HW) Hv. unfold f_write, bind.
  rewrite (encode_ok data s Hv).
  destruct (bufsize <? String.length (wf_buf f +:+ data))%nat.
  - eexists _, _. split; [done|]. split; [|done].
    split; [done|]. exists (disk +:+ wf_buf f +:+ data). rewrite Hp.
    split; [by apply flush_report|]. split; [|split; [done|]].
    + apply utf8_valid_app; [done|]. by apply utf8_valid_app.
    + simpl. by rewrite append_nil_r, <- HW, append_assoc.
  - eexists _, _. split; [done|]. split; [|done].
    split; [done|]. exists disk. split; [done|]. split; [done|]. simpl.
    split; [by apply utf8_valid_app|]. by rewrite <- HW, append_assoc.
Qed.

(** Reading a listed file while the report is open: it decodes; for the
    report itself, what has reached the disk is read. *)
Lemma read_file_inv W d f s n :
  report_inv W d f s -> clean d ->
  n = "report.txt" \/ is_Some (d !! n) ->
  exists text,
    read_file (OUTPUT, n) s = (Ok text, s) /\
    utf8_valid text = true /\
    (n <> "report.txt" ->
     exists bytes, d !! n = Some (File bytes) /\ decode_text bytes = Some text).
Proof.
  intros (Hp & disk & Hdir & Hvd & Hvb & HW) Hclean Hn.
  unfold read_file. unfold out_dir in Hdir. simpl.
  rewrite (dir_entries_key _ _ _ Hdir).
  destruct (decide (n = "report.txt")) as [->|Hne].
  - rewrite lookup_insert_eq. unfold decode_text. rewrite Hvd.
    eexists. split; [done|]. split; [by apply utf8_valid_newlines|done].
  - rewrite lookup_insert_ne by done.
    destruct Hn as [?|[x Hx]]; [done|]. rewrite Hx.
    destruct (clean_lookup d n x Hclean Hx) as (_ & b & -> & Hb).
    unfold decode_text. rewrite Hb. eexists. split; [done|].
    split; [by apply utf8_valid_newlines|]. intros _. exists b. by rewrite Hb.
Qed.

Lemma write_sections_inv files : forall W d f s,
  report_inv W d f s -> clean d ->
  Forall (fun n => utf8_valid n = true /\ (n = "report.txt" \/ is_Some (d !! n))) files ->
  exists f' s' texts,
    write_sections bufsize files f s = (Ok tt, f', s') /\
    report_inv (W +:+ String.concat "" (zip_with text_section files texts)) d f' s' /\
    st_log s' = st_log s /\ st_tape s' = st_tape s /\
    length texts = length files /\
    Forall2 (fun n t => n <> "report.txt" ->
               exists bytes, d !! n = Some (File bytes) /\ decode_text bytes = Some t)
            files texts.
Proof.
  induction files as [|file files IH]; intros W d f s Hinv Hclean Hfiles.
  - exists f, s, []. simpl. rewrite append_nil_r. done.
  - apply Forall_cons in Hfiles as [[Hvalid Hfile] Hfiles]. simpl.
    destruct (f_write_inv W d f s (section_header file) Hinv)
      as (f1 & s1 & -> & Hinv1 & Hl1 & Ht1); [by apply section_header_valid|].
    destruct (read_file_inv _ d f1 s1 file Hinv1 Hclean Hfile)
      as (text & -> & Hvt & Htext).
    destruct (f_write_inv _ d f1 s1 text Hinv1 Hvt) as (f2 & s2 & -> & Hinv2 & Hl2 & Ht2).
    destruct (IH _ d f2 s2 Hinv2 Hclean Hfiles)
      as (f' & s' & texts & -> & Hinv' & Hl' & Ht' & Hlen & Hall).
    exists f', s', (text :: texts). split; [done|].
    split; [|split; [congruence|split; [congruence|split; [by simpl; rewrite Hlen|]]]].
    + change (zip_with text_section (file :: files) (text :: texts))
        with (text_section file text :: zip_with text_section files texts).
      rewrite concat_cons. unfold text_section at 1.
      by rewrite <- !append_assoc.
    + by constructor.
Qed.

Lemma listing_valid d n :
  clean d -> n ∈ sorted (map_to_list d).*1 ->
  utf8_valid n = true /\ is_Some (d !! n).
Proof.
  intros Hclean Hn. apply sorted_elem_of, elem_of_listing in Hn as [x Hx].
  destruct (clean_lookup d n x Hclean Hx) as [Hv _]. eauto.
Qed.

(** The [with] block of [report.txt], on a clean directory: the report is
    created first, so it is among the names listed; the file ends up
    holding the sections of the listed names, in sorted order. *)
Lemma report_txt_spec s d :
  out_dir s = Some d -> clean d ->
  let names := sorted ((map_to_list (<["report.txt" := File ""]> d)).*1) in
  exists s' texts,
    report_txt bufsize s = (Ok tt, s') /\
    out_dir s' =
      Some (<["report.txt" := File (String.concat "" (zip_with text_section names texts))]> d) /\
    utf8_valid (String.concat "" (zip_with text_section names texts)) = true /\
    st_log s' = st_log s ++ [EvWrite (OUTPUT, "report.txt")] /\
    st_tape s' = st_tape s /\
    length texts = length names /\
    Forall2 (fun n t => n <> "report.txt" ->
               exists bytes, d !! n = Some (File bytes) /\ decode_text bytes = Some t)
            names texts.
Proof.
  intros Hd Hclean names. unfold report_txt, bind.
  unfold out_dir in Hd.
  rewrite (open_w_ok (OUTPUT, "report.txt") s d Hd (clean_not_folder d _ Hclean)).
  change ((OUTPUT, "report.txt").1) with OUTPUT.
  change ((OUTPUT, "report.txt").2) with "report.txt".
  set (s0 := set_os _ s).
  assert (out_dir s0 = Some (<["report.txt" := File ""]> d)) as Hd0.
  { unfold out_dir, s0. simpl. by rewrite lookup_insert_eq. }
  rewrite (listdir_out s0 _ Hd0). fold names.
  destruct (write_sections_inv names "" d (mkWfile (OUTPUT, "report.txt") "") s0)
    as (f' & s1 & texts & -> & Hinv & Hl & Ht & Hlen & Hall).
  { split; [done|]. exists "". done. }
  { done. }
  { apply Forall_forall. intros n Hn.
    destruct (listing_valid (<["report.txt" := File ""]> d) n) as [Hv [x Hx]];
      [by apply clean_insert|done|].
    split; [done|]. destruct (decide (n = "report.txt")) as [->|Hne]; [by left|].
    right. rewrite lookup_insert_ne in Hx by done. eauto. }
  destruct Hinv as (Hp & disk & Hdir & Hvd & Hvb & HW). rewrite append_nil_l in HW.
  unfold f_close, bind, get_os, put_os, emit. simpl.
  eexists _, texts. split; [done|]. simpl. rewrite Hp.
  split; [|split; [|split; [by rewrite Hl|split; [by rewrite Ht|done]]]].
  - rewrite <- HW. by apply flush_report.
  - rewrite <- HW. by apply utf8_valid_app.
Qed.

Lemma read_all_spec files : forall content s d,
  out_dir s = Some d -> clean d ->
  Forall (fun n => is_Some (d !! n)) files ->
  map_Forall (fun _ t => utf8_valid t = true) content ->
  exists content',
    read_all files content s = (Ok content', s) /\
    map_Forall (fun _ t => utf8_valid t = true) content' /\
    (forall n, n ∈ files ->
       exists bytes text, d !! n = Some (File bytes) /\
                          decode_text bytes = Some text /\ content' !! n = Some text) /\
    (forall n, n ∉ files -> content' !! n = content !! n).
Proof.
  induction files as [|f files IH]; intros content s d Hd Hclean Hall Hvalid.
  - exists content. split; [done|]. split; [done|]. split; [|done].
    intros n Hn. by apply elem_of_nil in Hn.
  - apply Forall_cons in Hall as [[x Hf] Hall]. simpl. unfold bind.
    destruct (clean_lookup d f x Hclean Hf) as (_ & b & -> & Hb).
    assert (read_file (OUTPUT, f) s = (Ok (universal_newlines b), s)) as ->.
    { unfold read_file. unfold out_dir in Hd. simpl.
      rewrite (dir_entries_key _ _ _ Hd), Hf. unfold decode_text. by rewrite Hb. }
    destruct (IH (<[f := universal_newlines b]> content) s d Hd Hclean Hall)
      as (content' & -> & Hv' & Hin & Hout).
    { apply map_Forall_insert_2; [by apply utf8_valid_newlines|done]. }
    exists content'. split; [done|]. split; [done|]. split.
    + intros n Hn. destruct (decide (n ∈ files)) as [Hin'|Hnin]; [by apply Hin|].
      apply elem_of_cons in Hn as [->|?]; [|done].
      exists b, (universal_newlines b). split; [done|].
      rewrite (Hout f Hnin), lookup_insert_eq. unfold decode_text. by rewrite Hb.
    + intros n Hn. rewrite not_elem_of_cons in Hn. destruct Hn as [Hne Hnin].
      rewrite (Hout n Hnin). by rewrite lookup_insert_ne.
Qed.

(** [report], whenever the artifact directory is clean.  [d1] is the
    directory as the second listing finds it. *)
Lemma report_spec s d :
  out_dir s = Some d -> clean d ->
  let names := sorted ((map_to_list (<["report.txt" := File ""]> d)).*1) in
  exists s' texts content,
    let d1 := <["report.txt" :=
                File (String.concat "" (zip_with text_section names texts))]> d in
    let files := sorted ((map_to_list d1).*1) in
    report bufsize s = (Ok tt, s') /\
    length texts = length names /\
    Forall2 (fun n t => n <> "report.txt" ->
               exists bytes, d !! n = Some (File bytes) /\ decode_text bytes = Some t)
            names texts /\
    (forall n, n ∈ files ->
       exists bytes text, d1 !! n = Some (File bytes) /\
                          decode_text bytes = Some text /\ content !! n = Some text) /\
    out_dir s' = Some (<["report.html" := File (render files content)]> d1) /\
    st_log s' = st_log s ++ [EvPrint (banner "[10/10] Report Generation");
                             EvWrite (OUTPUT, "report.txt");
                             EvWrite (OUTPUT, "report.html")] /\
    st_tape s' = st_tape s.
Proof.
  intros Hd Hclean names. unfold report.
  unfold bind at 1. unfold print, emit.
  set (s0 := mkState (st_os s) (st_log s ++ _) (st_tape s)).
  destruct (report_txt_spec s0 d Hd Hclean)
    as (s1 & texts & Htxt & Hd1 & Hvr & Hl1 & Ht1 & Hlen & Hall).
  fold names in Htxt, Hd1, Hvr, Hlen, Hall.
  unfold bind at 1. rewrite Htxt.
  set (d1 := <["report.txt" :=
                File (String.concat "" (zip_with text_section names texts))]> d) in *.
  assert (clean d1) as Hclean1 by (by apply clean_insert).
  unfold bind at 1. rewrite (listdir_out s1 d1 Hd1).
  set (files := sorted ((map_to_list d1).*1)).
  destruct (read_all_spec files ∅ s1 d1 Hd1 Hclean1) as (content & Hread & Hvc & Hcontent & _).
  { apply Forall_forall. intros n Hn. by apply (listing_valid d1 n Hclean1). }
  { apply map_Forall_empty. }
  unfold bind. rewrite Hread.
  rewrite (write_file_ok (OUTPUT, "report.html") _ s1 d1 Hd1
             (clean_not_folder d1 _ Hclean1)).
  2:{ apply render_valid; [|done]. apply Forall_forall. intros n Hn.
      by apply (listing_valid d1 n Hclean1). }
  exists (mkState (set_fs (<[OUTPUT := <["report.html" := File (render files content)]> d1]>
                             (fs (st_os s1))) (st_os s1))
                  (st_log s1 ++ [EvWrite (OUTPUT, "report.html")]) (st_tape s1)),
         texts, content.
  cbv zeta. fold d1. fold files.
  split; [done|]. split; [done|]. split; [done|]. split; [done|].
  split; [|split].
  - unfold out_dir. simpl. by rewrite lookup_insert_eq.
  - simpl. rewrite Hl1. unfold s0. simpl. by rewrite <- !app_assoc.
  - simpl. by rewrite Ht1.
Qed.

Lemma concat_split {A} (g : A -> string) (l : list A) x :
  x ∈ l -> exists pre post, String.concat "" (g <$> l) = pre +:+ g x +:+ post.
Proof.
  induction l as [|y l IH]; intros Hx.
  - by apply elem_of_nil in Hx.
  - rewrite fmap_cons, concat_cons. apply elem_of_cons in Hx as [->|Hx].
    + exists "", (String.concat "" (g <$> l)). done.
    + destruct (IH Hx) as (pre & post & ->).
      exists (g y +:+ pre), post. by rewrite append_assoc.
Qed.

(** Where the section of a listed file stands in the text report, and
    what follows it: nothing, or the header of the next section. *)
Lemma sections_split (names texts : list string) n :
  n ∈ names -> length texts = length names ->
  exists i t pre post,
    names !! i = Some n /\ texts !! i = Some t /\
    String.concat "" (zip_with text_section names texts)
      = pre +:+ text_section n t +:+ post /\
    (post = "" \/ exists m rest, post = section_header m +:+ rest).
Proof.
  revert texts. induction names as [|m names IH]; intros texts Hn Hlen.
  - by apply elem_of_nil in Hn.
  - destruct texts as [|t texts]; [done|]. simpl in Hlen.
    change (zip_with text_section (m :: names) (t :: texts))
      with (text_section m t :: zip_with text_section names texts).
    rewrite concat_cons.
    destruct (decide (n = m)) as [->|Hne].
    + exists 0%nat, t, "", (String.concat "" (zip_with text_section names texts)).
      split; [done|split; [done|split; [done|]]].
      destruct names as [|m' names]; [by left|]. right.
      destruct texts as [|t' texts]; [done|].
      change (zip_with text_section (m' :: names) (t' :: texts))
        with (text_section m' t' :: zip_with text_section names texts).
      rewrite concat_cons. unfold text_section at 1. rewrite append_assoc. eauto.
    + apply elem_of_cons in Hn as [?|Hn]; [done|].
      destruct (IH texts Hn) as (i & t' & pre & post & Hi & Ht & Heq & Hpost); [lia|].
      exists (S i), t', (text_section m t +:+ pre), post.
      split; [done|split; [done|split; [|done]]].
      by rewrite Heq, append_assoc.
Qed.

(** *** What [report] leaves alone, whatever happens *)

Lemma touch_bind {A B} ps (m : M A) (k : A -> M B) :
  touches_only ps m -> (forall x, touches_only ps (k x)) -> touches_only ps (bind m k).
Proof.
  intros Hm Hk s q Hq. unfold bind. specialize (Hm s q Hq).
  destruct (m s) as [[x|e] s1]; simpl in *; [|done]. by rewrite (Hk x s1 q Hq).
Qed.

Lemma touch_quiet {A} ps (m : M A) :
  (forall s, fs (st_os (m s).2) = fs (st_os s)) -> touches_only ps m.
Proof. intros Hm s q _. unfold file_content. by rewrite Hm. Qed.

Lemma touch_attempt {A} ps (m : M A) : touches_only ps m -> touches_only ps (attempt m).
Proof.
  intros Hm s q Hq. specialize (Hm s q Hq). unfold attempt.
  by destruct (m s) as [r s1].
Qed.

Lemma dir_entries_cases d o m :
  dir_entries d o = Some m -> fs o !! d = Some m \/ (fs o !! d = None /\ m = ∅).
Proof.
  unfold dir_entries. destruct (fs o !! d) as [m'|]; [intros [= <-]; by left|].
  intros H. right. split; [done|]. case_decide; [by injection H|].
  destruct (fs o !! "." ≫= _) as [[b|]|]; [done|by injection H|done].
Qed.

Lemma file_content_put (p q : path) x d o :
  q <> p -> fs o !! p.1 = Some d \/ (fs o !! p.1 = None /\ d = ∅) ->
  file_content q (set_fs (<[p.1 := <[p.2 := x]> d]> (fs o)) o) = file_content q o.
Proof.
  intros Hq Hd. unfold file_content. simpl.
  destruct (decide (q.1 = p.1)) as [E|E].
  - rewrite E, lookup_insert_eq. simpl.
    rewrite lookup_insert_ne
      by (intros E2; apply Hq; destruct p, q; simpl in *; congruence).
    destruct Hd as [->|[-> ->]]; [done|]. simpl. by rewrite lookup_empty.
  - by rewrite lookup_insert_ne.
Qed.

Lemma touch_open_w p ps : p ∈ ps -> touches_only ps (open_w p).
Proof.
  intros Hp s q Hq. unfold open_w.
  destruct (dir_entries p.1 (st_os s)) as [d|] eqn:Hd; [|done].
  destruct (d !! p.2) as [[b|]|]; [|done|]; simpl;
    (apply file_content_put; [by intros ->|by apply dir_entries_cases]).
Qed.

Lemma flush_to_frame p data o q :
  q <> p -> file_content q (flush_to p data o) = file_content q o.
Proof.
  intros Hq. unfold flush_to. destruct (fs o !! p.1) as [d|] eqn:Hd; [|done].
  apply file_content_put; [done|by left].
Qed.

Lemma touch_f_write f data ps :
  wf_path f ∈ ps -> touches_only ps (f_write bufsize f data).
Proof.
  intros Hp s q Hq. unfold f_write, bind, encode.
  destruct (utf8_valid data); [|done]. unfold ret.
  destruct (bufsize <? _)%nat; [|done]. simpl. apply flush_to_frame. by intros ->.
Qed.

Lemma f_write_path f data s f' s' :
  f_write bufsize f data s = (Ok f', s') -> wf_path f' = wf_path f.
Proof.
  unfold f_write, bind, encode. destruct (utf8_valid data); [|done]. unfold ret.
  destruct (bufsize <? _)%nat; intros H; by injection H as <- _.
Qed.

Lemma touch_f_close f ps : wf_path f ∈ ps -> touches_only ps (f_close f).
Proof.
  intros Hp s q Hq. unfold f_close, bind, get_os, put_os, emit. simpl.
  apply flush_to_frame. by intros ->.
Qed.

Lemma touch_write_file p data ps : p ∈ ps -> touches_only ps (write_file p data).
Proof.
  intros Hp. unfold write_file.
  apply touch_bind; [by apply touch_open_w|intros _].
  apply touch_bind.
  - apply touch_attempt. apply touch_bind.
    + apply touch_quiet. intros s. unfold encode. by destruct (utf8_valid data).
    + intros bytes s q Hq. unfold bind, get_os, put_os. simpl.
      apply flush_to_frame. by intros ->.
  - intros r. apply touch_bind; [by apply touch_quiet|intros _].
    apply touch_quiet. intros s. by destruct r.
Qed.

Lemma read_file_state p s : (read_file p s).2 = s.
Proof.
  unfold read_file. destruct (dir_entries p.1 (st_os s)) as [d|]; [|done].
  destruct (d !! p.2) as [[b|]|]; [|done..]. by destruct (decode_text b).
Qed.

Lemma listdir_state d s : (listdir d s).2 = s.
Proof. unfold listdir. by destruct (dir_entries d (st_os s)). Qed.

Lemma touch_read_all ps files : forall content, touches_only ps (read_all files content).
Proof.
  induction files as [|f files IH]; intros content; simpl.
  - by apply touch_quiet.
  - apply touch_bind; [|intros text; apply IH].
    apply touch_quiet. intros s. by rewrite read_file_state.
Qed.

Lemma write_sections_frame files : forall f s q,
  q <> wf_path f ->
  file_content q (st_os (write_sections bufsize files f s).2)
  = file_content q (st_os s) /\
  wf_path (write_sections bufsize files f s).1.2 = wf_path f.
Proof.
  induction files as [|file files IH]; intros f s q Hq; [done|]. simpl.
  pose proof (touch_f_write f (section_header file) [wf_path f]
                ltac:(by apply list_elem_of_singleton) s q
                ltac:(by rewrite list_elem_of_singleton)) as H1.
  destruct (f_write bufsize f (section_header file) s) as [[f1|e] s1] eqn:E1;
    simpl in H1; [|done].
  pose proof (f_write_path _ _ _ _ _ E1) as Hp1.
  pose proof (read_file_state (OUTPUT, file) s1) as H2.
  destruct (read_file (OUTPUT, file) s1) as [[text|e] s2]; simpl in H2; subst s2;
    [|done].
  pose proof (touch_f_write f1 text [wf_path f1]
                ltac:(by apply list_elem_of_singleton) s1 q
                ltac:(by rewrite list_elem_of_singleton, Hp1)) as H3.
  destruct (f_write bufsize f1 text s1) as [[f2|e] s3] eqn:E3; simpl in H3.
  - pose proof (f_write_path _ _ _ _ _ E3) as Hp3.
    destruct (IH f2 s3 q) as [H4 H5]; [congruence|].
    split; [|congruence]. by rewrite H4, H3, H1.
  - simpl. split; [by rewrite H3, H1|done].
Qed.

Lemma touch_report_txt ps :
  (OUTPUT, "report.txt") ∈ ps -> touches_only ps (report_txt bufsize).
Proof.
  intros Hp. unfold report_txt. apply touch_bind; [by apply touch_open_w|intros _].
  intros s q Hq.
  assert (q <> (OUTPUT, "report.txt")) as Hq' by (by intros ->).
  pose proof (listdir_state OUTPUT s) as Hl.
  destruct (listdir OUTPUT s) as [[names|e] s1]; simpl in Hl; subst s1.
  - destruct (write_sections_frame (sorted names) (mkWfile (OUTPUT, "report.txt") "") s q Hq')
      as [H1 H2].
    destruct (write_sections bufsize (sorted names) _ s) as [[r f] s2]. simpl in H1, H2.
    pose proof (touch_f_close f ps ltac:(by rewrite H2) s2 q Hq) as H3.
    destruct (f_close f s2) as [[[]|e] s3]; simpl in *; by rewrite H3.
  - apply (touch_bind ps (f_close _) _);
      [by apply touch_f_close|intros _; by apply touch_quiet|done].
Qed.

(** [report] changes no file but its two reports, whether it returns or
    raises: these are the only files it opens for writing. *)
Lemma touch_report :
  touches_only [(OUTPUT, "report.txt"); (OUTPUT, "report.html")] (report bufsize).
Proof.
  unfold report. apply touch_bind; [by apply touch_quiet|intros _].
  apply touch_bind; [apply touch_report_txt; by left|intros _].
  apply touch_bind; [apply touch_quiet; intros s; by rewrite listdir_state|intros names].
  apply touch_bind; [apply touch_read_all|intros content].
  apply touch_write_file. right. by left.
Qed.

(** C10. Whenever the artifact directory is there and clean (regular
    files only, names and contents valid UTF-8), [report] completes, and
    because [report.txt] is created before the directory is listed, both
    listings contain it: the text report has a section headed [report.txt]
    and the HTML report has an item for [report.txt], which shows the whole
    text report as it is read back. *)
Theorem report_lists_itself (s : State) :
  tidy (st_os s) ->
  exists s' text html,
    report bufsize s = (Ok tt, s') /\
    file_content (OUTPUT, "report.txt") (st_os s') = Some text /\
    file_content (OUTPUT, "report.html") (st_os s') = Some html /\
    (exists pre post, text = pre +:+ section_header "report.txt" +:+ post) /\
    (exists shown pre post,
       decode_text text = Some shown /\
       html = pre +:+ html_section "report.txt" shown +:+ post).
Proof.
  intros (d & Hd & Hclean).
  destruct (report_spec s d Hd Hclean)
    as (s' & texts & content & Hrun & Hlen & Hall & Hcontent & Hout & _).
  set (names := sorted (map_to_list (<["report.txt" := File ""]> d)).*1) in *.
  set (text := String.concat "" (zip_with text_section names texts)) in *.
  set (d1 := <["report.txt" := File text]> d) in *.
  set (files := sorted (map_to_list d1).*1) in *.
  exists s', text, (render files content).
  split; [done|].
  rewrite !(out_dir_content s' _ _ Hout).
  rewrite lookup_insert_ne by done. unfold d1 at 1. rewrite !lookup_insert_eq.
  split; [done|split; [done|split]].
  - assert ("report.txt" ∈ names) as Hin.
    { apply sorted_elem_of, elem_of_listing. rewrite lookup_insert_eq. eauto. }
    destruct (sections_split names texts "report.txt" Hin Hlen)
      as (i & t & pre & post & _ & _ & Heq & _).
    exists pre, (t +:+ post). unfold text. rewrite Heq. unfold text_section.
    by rewrite append_assoc.
  - assert ("report.txt" ∈ files) as Hin.
    { apply sorted_elem_of, elem_of_listing. unfold d1. rewrite lookup_insert_eq. eauto. }
    destruct (Hcontent _ Hin) as (b & shown & Hb & Hdec & Hshown).
    unfold d1 in Hb. rewrite lookup_insert_eq in Hb. injection Hb as <-.
    destruct (concat_split (html_item content) files "report.txt" Hin)
      as (pre & post & Heq).
    exists shown, (html_head +:+ pre), (post +:+ html_tail).
    split; [done|]. unfold render. rewrite Heq, html_item_section, Hshown.
    simpl. by rewrite !append_assoc.
Qed.

(** X1. What [report] leaves alone: whenever the artifact directory
    exists, every file but its two reports has the same content after
    [report] as before. *)
Lemma report_read_only (s : State) (q : path) :
  is_Some (out_dir s) ->
  q <> (OUTPUT, "report.txt") -> q <> (OUTPUT, "report.html") ->
  file_content q (st_os (report bufsize s).2) = file_content q (st_os s).
Proof.
  intros _ Hq1 Hq2. apply touch_report.
  rewrite !elem_of_cons. intros [?|[?|H]]; [done..|]. by apply elem_of_nil in H.
Qed.

(** X2. The text report, for a clean store: [report] completes and the
    report is one section per listed name, the names in increasing order and
    without repetition; they are [report.txt] and the files of the store,
    and the section of every file other than [report.txt] carries the text
    the file decodes to. *)
Theorem report_text_sections (s : State) (d : gmap string Node) :
  out_dir s = Some d -> clean d ->
  exists names texts,
    (report bufsize s).1 = Ok tt /\
    file_content (OUTPUT, "report.txt") (st_os (report bufsize s).2)
      = Some (String.concat "" (zip_with text_section names texts)) /\
    StronglySorted String.le names /\ NoDup names /\
    (forall n, n ∈ names <-> n = "report.txt" \/ is_Some (d !! n)) /\
    length texts = length names /\
    (forall i n t, names !! i = Some n -> texts !! i = Some t ->
       n <> "report.txt" ->
       exists bytes, d !! n = Some (File bytes) /\ decode_text bytes = Some t).
Proof.
  intros Hd Hclean.
  destruct (report_spec s d Hd Hclean)
    as (s' & texts & content & Hrun & Hlen & Hall & Hcontent & Hout & _).
  set (names := sorted (map_to_list (<["report.txt" := File ""]> d)).*1) in *.
  exists names, texts. rewrite Hrun. simpl. split; [done|].
  rewrite (out_dir_content s' _ _ Hout), lookup_insert_ne by done.
  rewrite lookup_insert_eq.
  split; [done|]. split; [|split; [|split; [|split; [done|]]]].
  - apply StronglySorted_merge_sort; apply _.
  - unfold names, sorted. rewrite merge_sort_Permutation.
    apply NoDup_fst_map_to_list.
  - intros n. unfold names. rewrite sorted_elem_of, elem_of_listing.
    destruct (decide (n = "report.txt")) as [->|Hne].
    + rewrite lookup_insert_eq. split; [by left|eauto].
    + rewrite lookup_insert_ne by done. split; [by right|]. by intros [?|?].
  - intros i n t Hn Ht Hne. exact (Forall2_lookup_lr _ _ _ _ _ _ Hall Hn Ht Hne).
Qed.

Lemma clean_ab : clean {[ "a.txt" := File "x"; "b.txt" := File "y" ]}.
Proof.
  apply map_Forall_insert_2; [split; [reflexivity|eauto]|].
  apply map_Forall_singleton. split; [reflexivity|eauto].
Qed.

(** C2, on the code.  For the store that holds [a.txt] with ["x"] and
    [b.txt] with ["y"], whatever the buffer size, the text report is not the
    expected string: the two expected sections are followed by a third one,
    headed [report.txt]. *)
Theorem report_ab_has_third_section :
  exists s' text self,
    report bufsize st_ab = (Ok tt, s') /\
    file_content (OUTPUT, "report.txt") (st_os s') = Some text /\
    text = expected_ab +:+ section_header "report.txt" +:+ self /\
    text <> expected_ab.
Proof.
  assert (out_dir st_ab = Some {[ "a.txt" := File "x"; "b.txt" := File "y" ]}) as Hd by done.
  destruct (report_spec st_ab _ Hd clean_ab)
    as (s' & texts & content & Hrun & Hlen & Hall & Hcontent & Hout & _).
  assert (sorted (map_to_list
            (<["report.txt" := File ""]> ({[ "a.txt" := File "x"; "b.txt" := File "y" ]}
               : gmap string Node))).*1
          = ["a.txt"; "b.txt"; "report.txt"]) as Hnames by (vm_compute; reflexivity).
  rewrite Hnames in Hlen, Hall, Hout.
  destruct texts as [|ta [|tb [|self [|]]]]; try discriminate Hlen.
  apply Forall2_cons in Hall as [Ha Hall].
  apply Forall2_cons in Hall as [Hb _].
  assert (ta = "x") as ->.
  { assert ("a.txt" <> "report.txt") as Hne by discriminate.
    destruct (Ha Hne) as (b & Hlook & Hdec). vm_compute in Hlook.
    injection Hlook as <-. vm_compute in Hdec. congruence. }
  assert (tb = "y") as ->.
  { assert ("b.txt" <> "report.txt") as Hne by discriminate.
    destruct (Hb Hne) as (b & Hlook & Hdec). vm_compute in Hlook.
    injection Hlook as <-. vm_compute in Hdec. congruence. }
  exists s', (expected_ab +:+ section_header "report.txt" +:+ self), self.
  split; [done|]. rewrite (out_dir_content s' _ _ Hout).
  rewrite lookup_insert_ne by done. rewrite lookup_insert_eq.
  split; [|split; [done|]].
  - reflexivity.
  - intros Heq. rewrite <- (append_nil_r expected_ab) in Heq at 2.
    apply (inj (String.append expected_ab)) in Heq.
    unfold section_header, nl in Heq. by rewrite !append_cons in Heq.
Qed.

End Report.

Lemma st_ab_out_dir :
  out_dir st_ab = Some {[ "a.txt" := File "x"; "b.txt" := File "y" ]}.
Proof. reflexivity. Qed.

Lemma st_ab_tidy : tidy (st_os st_ab).
Proof. eexists. split; [exact st_ab_out_dir|exact clean_ab]. Qed.

Lemma report_lists_itself_witness :
  exists s' text html,
    report DEFAULT_BUFFER_SIZE st_ab = (Ok tt, s') /\
    file_content (OUTPUT, "report.txt") (st_os s') = Some text /\
    file_content (OUTPUT, "report.html") (st_os s') = Some html /\
    (exists pre post, text = pre +:+ section_header "report.txt" +:+ post) /\
    (exists shown pre post,
       decode_text text = Some shown /\
       html = pre +:+ html_section "report.txt" shown +:+ post).
Proof.
  apply (report_lists_itself DEFAULT_BUFFER_SIZE st_ab). exact st_ab_tidy.
Defined.

Lemma report_read_only_witness :
  file_content (OUTPUT, "a.txt") (st_os (report DEFAULT_BUFFER_SIZE st_ab).2)
  = file_content (OUTPUT, "a.txt") (st_os st_ab).
Proof.
  apply (report_read_only DEFAULT_BUFFER_SIZE st_ab (OUTPUT, "a.txt")).
  - rewrite st_ab_out_dir. eauto.
  - discriminate.
  - discriminate.
Defined.

Lemma report_text_sections_witness :
  exists names texts,
    file_content (OUTPUT, "report.txt") (st_os (report DEFAULT_BUFFER_SIZE st_ab).2)
      = Some (String.concat "" (zip_with text_section names texts)) /\
    StronglySorted String.le names.
Proof.
  destruct (report_text_sections DEFAULT_BUFFER_SIZE st_ab _ st_ab_out_dir clean_ab)
    as (names & texts & _ & H1 & H2 & _).
  exists names, texts. split; [exact H1|exact H2].
Defined.

(** With the default buffer the unflushed report reads back empty, so
    the third section has a header and no content. *)
Example report_ab_text :
  file_content (OUTPUT, "report.txt") (st_os (report DEFAULT_BUFFER_SIZE st_ab).2)
  = Some (expected_ab +:+ section_header "report.txt").
Proof. vm_compute. reflexivity. Qed.

(** A sub-directory among the artifacts: [os.listdir] returns its name,
    opening it raises, and [report] stops there, leaving a text report that
    ends with the header of the sub-directory and no HTML report.  A file
    that is not UTF-8 stops it in the same way. *)
Example report_stops_at_folder :
  let o := mkOS {[ "output" := {[ "a.txt" := File "x"; "assets" := Folder ]} ]} 0 in
  let '(r, s') := report DEFAULT_BUFFER_SIZE (mkState o [] []) in
  r = Raise (IsADirectoryError (OUTPUT, "assets")) /\
  file_content (OUTPUT, "report.txt") (st_os s')
    = Some (section_header "a.txt" +:+ "x" +:+ section_header "assets") /\
  file_content (OUTPUT, "report.html") (st_os s') = None.
Proof. vm_compute. done. Qed.

Example report_stops_at_binary :
  let o := mkOS {[ "output" := {[ "a.bin" := File (String (ascii_of_nat 255) "");
                                  "b.txt" := File "y" ]} ]} 0 in
  let '(r, s') := report DEFAULT_BUFFER_SIZE (mkState o [] []) in
  r = Raise UnicodeDecodeError /\
  file_content (OUTPUT, "report.txt") (st_os s') = Some (section_header "a.bin") /\
  file_content (OUTPUT, "report.html") (st_os s') = None.
Proof. vm_compute. done. Qed.

(** Reading in text mode unifies the line endings: a file written by a
    DOS tool does not appear byte for byte in the report. *)
Example report_crlf :
  let o := mkOS {[ "output" := {[ "a.txt" := File ("x" +:+ String CR (String LF "y")) ]} ]} 0 in
  file_content (OUTPUT, "report.txt")
    (st_os (report DEFAULT_BUFFER_SIZE (mkState o [] [])).2)
  = Some (section_header "a.txt" +:+ "x" +:+ String LF "y"
          +:+ section_header "report.txt").
Proof. vm_compute. reflexivity. Qed.

(** C3, on the code.  Run twice from the store of [a.txt] and [b.txt],
    [report] succeeds both times and the second text report and the second
    HTML report differ from the first ones: the second run lists the
    [report.html] of the first run. *)
Theorem report_twice_differs :
  let '(r1, s1) := report DEFAULT_BUFFER_SIZE st_ab in
  let '(r2, s2) := report DEFAULT_BUFFER_SIZE s1 in
  r1 = Ok tt /\ r2 = Ok tt /\
  file_content (OUTPUT, "report.txt") (st_os s1)
    <> file_content (OUTPUT, "report.txt") (st_os s2) /\
  file_content (OUTPUT, "report.html") (st_os s1)
    <> file_content (OUTPUT, "report.html") (st_os s2).
Proof.
  destruct (report DEFAULT_BUFFER_SIZE st_ab) as [r1 s1] eqn:E1.
  destruct (report DEFAULT_BUFFER_SIZE s1) as [r2 s2] eqn:E2.
  vm_compute in E1. injection E1 as <- <-.
  vm_compute in E2. injection E2 as <- <-.
  split; [done|split; [done|split]]; apply (bool_decide_unpack _); vm_compute; exact I.
Qed.

(** ** The stage sequence *)

Section Stages.

Variable sh : string -> OS -> Proc * OS.

Lemma emits_weaken {A} (m : M A) alpha alpha' (full full' : list Event -> Prop) :
  emits m alpha full -> alpha ⊆ alpha' -> (forall seg, full seg -> full' seg) ->
  emits m alpha' full'.
Proof.
  intros Hm Ha Hf s. destruct (Hm s) as (seg & Hl & Hs & Hfull).
  exists seg. split; [done|]. split; [by etrans|]. intros Hok. by apply Hf, Hfull.
Qed.

Lemma emits_bind {A B} (m : M A) (k : A -> M B) a1 a2 (f1 f2 : list Event -> Prop) :
  emits m a1 f1 -> (forall x, emits (k x) a2 f2) ->
  emits (bind m k) (a1 ++ a2)
        (fun seg => exists s1 s2, seg = s1 ++ s2 /\ f1 s1 /\ f2 s2).
Proof.
  intros Hm Hk s. unfold bind. destruct (Hm s) as (seg1 & Hl1 & Hs1 & Hf1).
  destruct (m s) as [[x|e] s1]; simpl in *.
  - destruct (Hk x s1) as (seg2 & Hl2 & Hs2 & Hf2).
    exists (seg1 ++ seg2). split; [by rewrite Hl2, Hl1, app_assoc|]. split.
    + intros ev Hev. apply elem_of_app in Hev as [?|?]; apply elem_of_app; auto.
    + intros Hok. exists seg1, seg2. auto.
  - exists seg1. split; [done|]. split; [|done].
    intros ev Hev. apply elem_of_app; auto.
Qed.

Lemma emits_silent {A} (m : M A) :
  (forall s, st_log (m s).2 = st_log s) -> emits m [] (fun seg => seg = []).
Proof.
  intros Hm s. exists []. rewrite app_nil_r. split; [by apply Hm|]. done.
Qed.

Lemma emits_print msg :
  emits (print msg) [EvPrint msg] (fun seg => seg = [EvPrint msg]).
Proof. intros s. exists [EvPrint msg]. done. Qed.

Lemma emits_run cmd outfile :
  emits (run sh cmd outfile) (run_events cmd outfile)
        (fun seg => seg = run_events cmd outfile).
Proof.
  intros s.
  destruct (run_outcome sh cmd outfile s) as [(txt & s' & -> & Hl)|(e & s' & -> & Hl)].
  - exists (run_events cmd outfile). done.
  - exists [EvExec cmd]. split; [done|]. split; [|done].
    intros ev Hev. apply list_elem_of_singleton in Hev as ->. by left.
Qed.

Lemma task_events_pool (tasks : list Task) t :
  t ∈ tasks -> task_events t ⊆ flat_map task_events tasks.
Proof.
  intros Ht ev Hev. apply list_elem_of_In, in_flat_map.
  exists t. split; by apply list_elem_of_In.
Qed.

Lemma finished_all_ok (fin : list Finished) :
  Forall finished_ok fin -> first_exn fin.*1.*2 = None ->
  concat fin.*2 = flat_map task_events fin.*1.*1.
Proof.
  induction 1 as [|[[t fut] evs] fin Hx _ IH]; [done|].
  rewrite !fmap_cons. cbn [fst snd first_exn concat flat_map].
  destruct Hx as [(d & -> & ->)|(e & -> & _)]; [|done].
  intros Hfirst. by rewrite (IH Hfirst).
Qed.

Lemma emits_run_parallel (tasks : list Task) workers :
  (1 <= workers)%Z ->
  emits (run_parallel sh tasks workers) (flat_map task_events tasks)
        (fun seg => exists order, order ≡ₚ tasks /\ seg = flat_map task_events order).
Proof.
  intros Hw s. unfold run_parallel. destruct (workers <=? 0)%Z eqn:E; [lia|].
  unfold bind.
  destruct (executor_run_trace sh (Z.to_nat workers) (length tasks) tasks s)
    as (ran & fin & s0 & s1 & _ & -> & _ & _ & Hfin & Hperm & Hok & Hlog); [lia|done|].
  rewrite collect_spec. exists (concat ran.*2). split; [by destruct (first_exn _)|].
  split.
  - intros ev Hev. apply list_elem_of_In, in_concat in Hev as (evs & Hevs & Hev).
    apply list_elem_of_In, list_elem_of_fmap in Hevs as ([[t fut] evs'] & -> & Hin).
    rewrite Forall_forall in Hok. specialize (Hok _ Hin). simpl in *.
    assert (t ∈ tasks) as Ht.
    { rewrite <- Hperm. apply list_elem_of_fmap. exists (t, fut).
      split; [done|]. apply list_elem_of_fmap. by exists (t, fut, evs'). }
    apply (task_events_pool tasks t Ht).
    destruct Hok as [(d & _ & ->)|(e & _ & ->)]; [by apply list_elem_of_In|].
    apply list_elem_of_In in Hev. apply list_elem_of_singleton in Hev as ->. by left.
  - destruct (first_exn fin.*1.*2) eqn:Hfirst; [done|]. intros _.
    exists (ran.*1.*1). split; [done|]. apply finished_all_ok; [done|].
    apply first_exn_None. rewrite <- Hfin. by apply first_exn_None.
Qed.

(** The four shapes of a stage. *)

Lemma shape_single msg cmd outfile :
  emits (print msg ;; run sh cmd outfile ;; ret tt)
        (EvPrint msg :: run_events cmd outfile)
        (fun seg => seg = EvPrint msg :: run_events cmd outfile).
Proof.
  eapply emits_weaken.
  - eapply emits_bind; [apply emits_print|intros _].
    eapply emits_bind; [apply emits_run|intros _].
    apply emits_silent. done.
  - simpl. by rewrite app_nil_r.
  - intros seg (s1 & s2 & -> & -> & s3 & s4 & -> & -> & ->). simpl.
    by rewrite app_nil_r.
Qed.

Lemma shape_pool_merge msg tasks cmd outfile :
  emits (print msg ;; run_parallel sh tasks default_workers ;;
         run sh cmd outfile ;; ret tt)
        (EvPrint msg :: flat_map task_events tasks ++ run_events cmd outfile)
        (fun seg => exists order, order ≡ₚ tasks /\
           seg = EvPrint msg :: flat_map task_events order ++ run_events cmd outfile).
Proof.
  eapply emits_weaken.
  - eapply emits_bind; [apply emits_print|intros _].
    eapply emits_bind; [by apply emits_run_parallel|intros _].
    eapply emits_bind; [apply emits_run|intros _].
    apply emits_silent. done.
  - simpl. by rewrite app_nil_r.
  - intros seg (s1 & s2 & -> & -> & s3 & s4 & -> & (order & Hp & ->)
                & s5 & s6 & -> & -> & ->).
    exists order. split; [done|]. simpl. by rewrite app_nil_r.
Qed.

Lemma shape_pool msg tasks :
  emits (print msg ;; run_parallel sh tasks default_workers ;; ret tt)
        (EvPrint msg :: flat_map task_events tasks)
        (fun seg => exists order, order ≡ₚ tasks /\
           seg = EvPrint msg :: flat_map task_events order).
Proof.
  eapply emits_weaken.
  - eapply emits_bind; [apply emits_print|intros _].
    eapply emits_bind; [by apply emits_run_parallel|intros _].
    apply emits_silent. done.
  - simpl. by rewrite app_nil_r.
  - intros seg (s1 & s2 & -> & -> & s3 & s4 & -> & (order & Hp & ->) & ->).
    exists order. split; [done|]. simpl. by rewrite app_nil_r.
Qed.

Lemma shape_guarded msg name cmd0 tasks cmd outfile :
  emits (print msg ;;
         present <- path_exists name ;;
         (if negb present then run sh cmd0 None ;; ret tt else ret tt) ;;
         run_parallel sh tasks default_workers ;;
         run sh cmd outfile ;; ret tt)
        (EvPrint msg :: run_events cmd0 None
           ++ flat_map task_events tasks ++ run_events cmd outfile)
        (fun seg => exists pre order,
           (pre = [] \/ pre = run_events cmd0 None) /\ order ≡ₚ tasks /\
           seg = EvPrint msg :: pre ++ flat_map task_events order
                   ++ run_events cmd outfile).
Proof.
  eapply emits_weaken.
  - eapply emits_bind; [apply emits_print|intros _].
    eapply emits_bind; [apply (emits_silent (path_exists name)); done|intros present].
    eapply (emits_bind _ _ (run_events cmd0 None) _
              (fun seg => seg = [] \/ seg = run_events cmd0 None)).
    { destruct present; simpl.
      - eapply emits_weaken; [apply (emits_silent (ret tt)); done| |].
        + intros ev Hev. by apply elem_of_nil in Hev.
        + intros seg ->. by left.
      - eapply emits_weaken.
        + eapply emits_bind; [apply emits_run|intros _].
          apply (emits_silent (ret tt)). done.
        + by rewrite app_nil_r.
        + intros seg (s1 & s2 & -> & -> & ->). right. by rewrite app_nil_r. }
    intros _.
    eapply emits_bind; [by apply emits_run_parallel|intros _].
    eapply emits_bind; [apply emits_run|intros _].
    apply emits_silent. done.
  - simpl. by rewrite app_nil_r.
  - intros seg (s1 & s2 & -> & -> & s3 & s4 & -> & -> & s5 & s6 & -> & Hpre
                & s7 & s8 & -> & (order & Hp & ->) & s9 & s10 & -> & -> & ->).
    exists s5, order. split; [done|]. split; [done|]. simpl. by rewrite app_nil_r.
Qed.

Lemma stage_emits k m :
  stages sh !! k = Some m -> emits m (stage_alphabet (S k)) (stage_complete (S k)).
Proof.
  intros Hk.
  destruct k as [|[|[|[|[|[|[|[|[|k]]]]]]]]]; simpl in Hk; try discriminate Hk;
    injection Hk as <-.
  - eapply emits_weaken; [apply shape_pool_merge|done|].
    intros seg (order & Hp & ->). by exists [], order; split; [left|].
  - eapply emits_weaken; [apply shape_single|done|].
    intros seg ->. by exists [], []; split; [left|].
  - eapply emits_weaken; [apply shape_single|done|].
    intros seg ->. by exists [], []; split; [left|].
  - eapply emits_weaken; [apply shape_single|done|].
    intros seg ->. by exists [], []; split; [left|].
  - eapply emits_weaken; [apply shape_single|done|].
    intros seg ->. by exists [], []; split; [left|].
  - eapply emits_weaken; [apply shape_pool_merge|done|].
    intros seg (order & Hp & ->). by exists [], order; split; [left|].
  - eapply emits_weaken; [apply shape_pool|done|].
    intros seg (order & Hp & ->). exists [], order. split; [by left|].
    split; [done|]. simpl. by rewrite app_nil_r.
  - eapply emits_weaken; [apply shape_guarded|done|].
    intros seg (pre & order & Hpre & Hp & ->). exists pre, order. done.
  - eapply emits_weaken; [apply shape_single|done|].
    intros seg ->. by exists [], []; split; [left|].
Qed.

Lemma bind_ret_tt (m : M unit) s : (m ;; ret tt) s = m s.
Proof. unfold bind, ret. by destruct (m s) as [[[]|e] s']. Qed.

Lemma recon_run_stages s :
  recon sh s = (makedirs OUTPUT ;; run_stages (stages sh)) s.
Proof.
  unfold recon, stages, run_stages, bind.
  destruct (makedirs OUTPUT s) as [[x|e] s0]; [|done].
  repeat (match goal with
          | |- context [match ?m ?st with _ => _ end] =>
              is_var st; destruct (m st) as [[[]|?] ?]; [|done]
          end).
  done.
Qed.

Lemma concat_replicate_nil {A} n : concat (replicate n ([] : list A)) = [].
Proof. induction n; [done|]. simpl. done. Qed.

Lemma run_stages_chain (ms : list (M unit)) : forall (k0 : nat) s,
  (forall i m, ms !! i = Some m ->
     emits m (stage_alphabet (k0 + i)) (stage_complete (k0 + i))) ->
  exists segs : list (list Event),
    length segs = length ms /\
    st_log (run_stages ms s).2 = st_log s ++ concat segs /\
    (forall i seg, segs !! i = Some seg -> seg ⊆ stage_alphabet (k0 + i)) /\
    (forall i seg seg', segs !! i = Some seg -> segs !! S i = Some seg' ->
       seg' <> [] -> stage_complete (k0 + i) seg) /\
    (is_ok (run_stages ms s).1 = true ->
     forall i seg, segs !! i = Some seg -> stage_complete (k0 + i) seg).
Proof.
  induction ms as [|m ms IH]; intros k0 s Hms.
  - exists []. simpl. rewrite app_nil_r.
    split; [done|]. split; [done|].
    split; [|split]; intros;
      match goal with H : [] !! _ = Some _ |- _ => by rewrite lookup_nil in H end.
  - destruct (Hms 0%nat m eq_refl s) as (seg & Hl & Hsub & Hfull).
    rewrite Nat.add_0_r in Hsub, Hfull.
    simpl. unfold bind. destruct (m s) as [[[]|e] s1]; simpl in *.
    + destruct (IH (S k0) s1) as (segs & Hlen & Hlog & Hsubs & Hadj & Hall).
      { intros i m' Hi. rewrite Nat.add_succ_comm. by apply (Hms (S i)). }
      exists (seg :: segs). simpl. split; [by rewrite Hlen|].
      split; [by rewrite Hlog, Hl, app_assoc|]. split; [|split].
      * intros [|i] sg Hi; simpl in Hi.
        -- injection Hi as <-. by rewrite Nat.add_0_r.
        -- rewrite <- Nat.add_succ_comm. by apply Hsubs.
      * intros [|i] sg sg' Hi Hi' Hne; simpl in Hi, Hi'.
        -- injection Hi as <-. rewrite Nat.add_0_r. by apply Hfull.
        -- rewrite <- Nat.add_succ_comm. by eapply Hadj.
      * intros Hok [|i] sg Hi; simpl in Hi.
        -- injection Hi as <-. rewrite Nat.add_0_r. by apply Hfull.
        -- rewrite <- Nat.add_succ_comm. by apply Hall.
    + exists (seg :: replicate (length ms) []). simpl.
      rewrite length_replicate, concat_replicate_nil, app_nil_r.
      split; [done|]. split; [done|]. split; [|split; [|intros ?; discriminate]].
      * intros [|i] sg Hi; simpl in Hi.
        -- injection Hi as <-. by rewrite Nat.add_0_r.
        -- apply lookup_replicate in Hi as [-> _]. intros ev Hev.
           by apply elem_of_nil in Hev.
      * intros [|i] sg sg' Hi Hi' Hne; simpl in Hi, Hi';
          apply lookup_replicate in Hi' as [-> _]; done.
Qed.

Lemma makedirs_log d s : st_log (makedirs d s).2 = st_log s.
Proof.
  unfold makedirs. destruct (dir_entries d (st_os s)); [done|].
  by destruct (fs (st_os s) !! "." ≫= _).
Qed.

(** C6. The log of [recon] splits into nine consecutive segments, one per
    stage and in stage order; a segment holds only events of its own stage
    (and no event belongs to two stages); and whenever the segment of stage
    [k+1] is not empty, that is, as soon as stage [k+1] has printed its
    banner, the segment of stage [k] is complete: every task of stage [k]
    has run and written its file, and after them its merge step has run
    and written its artifact.  This holds for every shell, every completion
    order and every outcome, failures included. *)
Theorem recon_stages_in_order (s : State) :
  exists segs : list (list Event),
    length segs = 9%nat /\
    st_log (recon sh s).2 = st_log s ++ concat segs /\
    (forall k seg, segs !! k = Some seg -> seg ⊆ stage_alphabet (S k)) /\
    (forall k seg seg', segs !! k = Some seg -> segs !! S k = Some seg' ->
       seg' <> [] -> stage_complete (S k) seg) /\
    (forall j k ev, (j < k <= 9)%nat ->
       ev ∈ stage_alphabet j -> ev ∈ stage_alphabet k -> False).
Proof.
  assert (forall j k ev, (j < k <= 9)%nat ->
            ev ∈ stage_alphabet j -> ev ∈ stage_alphabet k -> False) as Hdisj.
  { assert (Forall (fun k => Forall (fun j => (j < k)%nat ->
              Forall (fun ev => ev ∉ stage_alphabet k) (stage_alphabet j))
              (seq 0 10)) (seq 0 10)) as Hchk
      by (apply (bool_decide_unpack _); vm_compute; exact I).
    intros j k ev Hjk Hj Hk.
    rewrite Forall_forall in Hchk.
    assert (k ∈ seq 0 10) as Hk' by (apply elem_of_seq; lia).
    specialize (Hchk k Hk'). rewrite Forall_forall in Hchk.
    assert (j ∈ seq 0 10) as Hj' by (apply elem_of_seq; lia).
    specialize (Hchk j Hj' ltac:(lia)). rewrite Forall_forall in Hchk.
    by apply (Hchk ev Hj). }
  rewrite recon_run_stages. unfold bind.
  pose proof (makedirs_log OUTPUT s) as Hmk.
  destruct (makedirs OUTPUT s) as [[[]|e] s0]; simpl in Hmk.
  - destruct (run_stages_chain (stages sh) 1 s0) as (segs & Hlen & Hlog & Hsub & Hadj & _).
    { intros i m Hi. by apply stage_emits. }
    exists segs. rewrite Hlog, Hmk. done.
  - exists (replicate 9 []). split; [done|]. split; [by rewrite app_nil_r|].
    split; [|split; [|done]].
    + intros k seg Hk. apply lookup_replicate in Hk as [-> _].
      intros ev Hev. by apply elem_of_nil in Hev.
    + intros k seg seg' _ Hk. apply lookup_replicate in Hk as [-> _]. done.
Qed.

End Stages.

(** ** Fail-soft: the pipeline reaches the report *)

Section Pipeline.

Variable sh : string -> OS -> Proc * OS.
Variable bufsize : nat.
Hypothesis Htidy : sh_tidy sh.

Lemma tidy_cmd cmd : has_nul cmd = false -> cmd_safe sh tidy cmd.
Proof. intros Hnul. split; [done|]. intros o Ho. by apply Htidy. Qed.

Lemma tidy_writable name : utf8_valid name = true -> writable tidy (out name).
Proof.
  intros Hv p Hp o (d & Hd & Hclean). injection Hp as <-. simpl.
  exists d. split; [done|]. split; [by apply clean_not_folder|].
  intros text Ht. exists (<[name := File text]> d). simpl.
  split; [by rewrite lookup_insert_eq|]. by apply clean_insert.
Qed.

Lemma none_writable : writable tidy None.
Proof. intros p Hp. discriminate Hp. Qed.

Ltac served :=
  split; [apply tidy_cmd; reflexivity
         |first [apply tidy_writable; reflexivity | apply none_writable]].

Ltac safe :=
  repeat match goal with
    | |- safe_in _ (bind _ _) => apply safe_bind; [|intros ?]
    | |- safe_in _ (run _ _ _) =>
        apply safe_run;
          [apply tidy_cmd; reflexivity
          |first [apply tidy_writable; reflexivity | apply none_writable]]
    | |- safe_in _ (run_parallel _ _ _) =>
        apply safe_run_parallel;
          [unfold default_workers; lia
          |repeat (apply Forall_cons_2; [served|]); apply Forall_nil_2]
    | |- safe_in _ (print _) => apply safe_quiet; intros ?; split; reflexivity
    | |- safe_in _ (ret _) => apply safe_quiet; intros ?; split; reflexivity
    | |- safe_in _ (path_exists _) => apply safe_quiet; intros ?; split; reflexivity
    end.

Lemma stage_safe m : m ∈ stages sh -> safe_in tidy m.
Proof.
  unfold stages. rewrite !elem_of_cons.
  intros [->|[->|[->|[->|[->|[->|[->|[->|[->|H]]]]]]]]];
    [..|by apply elem_of_nil in H].
  1-7,9: unfold stage1, stage2, stage3, stage4, stage5, stage6, stage7, stage9; safe.
  unfold stage8. apply safe_bind; [safe|intros ?].
  apply safe_bind; [safe|intros present].
  apply safe_bind; [destruct present; simpl; safe|intros ?]. safe.
Qed.

Lemma run_stages_safe (ms : list (M unit)) :
  Forall (safe_in tidy) ms -> safe_in tidy (run_stages ms).
Proof.
  induction 1 as [|m ms Hm _ IH]; simpl.
  - by apply safe_quiet.
  - apply safe_bind; [done|]. intros _. exact IH.
Qed.

Lemma run_stages_snoc (ms : list (M unit)) m s :
  run_stages (ms ++ [m]) s = (run_stages ms ;; m) s.
Proof.
  revert s. induction ms as [|m0 ms IH]; intros s; simpl.
  - rewrite bind_ret_tt. reflexivity.
  - unfold bind in IH |- *. destruct (m0 s) as [[[]|e] s1]; [|done]. apply IH.
Qed.

Lemma makedirs_ok s :
  tidy (st_os s) \/
  (fs (st_os s) !! OUTPUT = None /\ fs (st_os s) !! "." ≫= (.!! OUTPUT) = None) ->
  exists s0, makedirs OUTPUT s = (Ok tt, s0) /\ st_log s0 = st_log s /\
             tidy (st_os s0).
Proof.
  unfold makedirs. intros [(d & Hd & Hclean)|[Hd Hfile]].
  - rewrite (dir_entries_key _ _ _ Hd). exists s. split; [done|]. split; [done|].
    by exists d.
  - unfold dir_entries. rewrite Hd, Hfile. rewrite decide_False by done.
    eexists. split; [done|]. split; [done|]. exists ∅. simpl.
    split; [by rewrite lookup_insert_eq|]. apply map_Forall_empty.
Qed.

Lemma stages_safe : Forall (safe_in tidy) (stages sh).
Proof. apply Forall_forall. intros m Hm. by apply stage_safe. Qed.

(** After a run of the last stage in which nuclei printed nothing,
    [nuclei.txt] is empty. *)
Lemma stage9_empty s8 s1 :
  tidy (st_os s8) ->
  (forall o, stdout_bytes (sh nuclei_cmd o).1 = "") ->
  stage9 sh s8 = (Ok tt, s1) ->
  file_content (OUTPUT, "nuclei.txt") (st_os s1) = Some "".
Proof.
  intros Hs Hfail Hrun. unfold stage9 in Hrun.
  unfold bind at 1 in Hrun. unfold print, emit in Hrun.
  set (s9 := mkState (st_os s8) _ (st_tape s8)) in Hrun.
  change ("nuclei -l " +:+ OUTPUT +:+ "/alive.txt -severity low,medium,high -silent")
    with nuclei_cmd in Hrun.
  destruct (Htidy nuclei_cmd (st_os s8) Hs) as [(d & Hd9 & Hclean) _].
  unfold bind, out in Hrun.
  rewrite (run_capture_ok sh nuclei_cmd (OUTPUT, "nuclei.txt") s9 d "") in Hrun;
    [|reflexivity|simpl; by rewrite Hfail|exact Hd9|by apply clean_not_folder].
  unfold ret in Hrun. injection Hrun as <-.
  unfold file_content. simpl.
  rewrite lookup_insert_eq. simpl. by rewrite lookup_insert_eq.
Qed.

(** C7. Let the commands leave the artifact directory clean (regular
    files only, names and contents valid UTF-8) and print text that
    decodes, whatever their exit status; and let the directory be clean at
    the start, or absent with nothing in its place.  Then [recon] runs all
    nine stages to their end and [report] builds both reports: no stage is
    skipped or repeated, and nothing is raised.  A file left empty by a
    failed command shows in the text report as a header with nothing under
    it; in particular, when nuclei fails with a non-zero status and prints
    nothing, [nuclei.txt] is empty and so is its section. *)
Theorem pipeline_fail_soft (s : State) :
  tidy (st_os s) \/
  (fs (st_os s) !! OUTPUT = None /\ fs (st_os s) !! "." ≫= (.!! OUTPUT) = None) ->
  exists s1 s' segs text,
    recon sh s = (Ok tt, s1) /\
    report bufsize s1 = (Ok tt, s') /\
    length segs = 9%nat /\
    st_log s' = st_log s ++ concat segs ++ report_events /\
    (forall k seg, segs !! k = Some seg -> stage_complete (S k) seg) /\
    file_content (OUTPUT, "report.txt") (st_os s') = Some text /\
    (forall file, file <> "report.txt" ->
       file_content (OUTPUT, file) (st_os s1) = Some "" ->
       exists pre post,
         text = pre +:+ section_header file +:+ post /\
         (post = "" \/ exists m rest, post = section_header m +:+ rest)) /\
    ((forall o, returncode (sh nuclei_cmd o).1 <> 0%Z /\
                stdout_bytes (sh nuclei_cmd o).1 = "") ->
     file_content (OUTPUT, "nuclei.txt") (st_os s1) = Some "").
Proof.
  intros Hpre.
  destruct (makedirs_ok s Hpre) as (s0 & Hmk & Hl0 & Hd0).
  destruct (run_stages_chain (stages sh) 1 s0) as (segs & Hlen & Hlog & _ & _ & Hall).
  { intros i m Hi. by apply (stage_emits sh). }
  destruct (run_stages_safe (stages sh) stages_safe s0 Hd0) as [Hd1 Hok].
  destruct (run_stages (stages sh) s0) as [[[]|e] s1] eqn:Hrun; simpl in Hd1, Hok, Hlog;
    [|discriminate Hok].
  assert (recon sh s = (Ok tt, s1)) as Hrecon.
  { rewrite recon_run_stages. unfold bind. by rewrite Hmk, Hrun. }
  destruct Hd1 as (d & Hd & Hclean).
  destruct (report_spec bufsize s1 d Hd Hclean)
    as (s' & texts & content & Hrep & Htlen & Htexts & _ & Hout & Hrlog & _).
  set (names := sorted (map_to_list (<["report.txt" := File ""]> d)).*1) in *.
  exists s1, s', segs, (String.concat "" (zip_with text_section names texts)).
  split; [done|]. split; [done|]. split; [done|].
  split; [by rewrite Hrlog, Hlog, Hl0, <- app_assoc|].
  split; [by apply Hall|].
  split; [|split].
  - rewrite (out_dir_content s' _ _ Hout). rewrite lookup_insert_ne by done.
    by rewrite lookup_insert_eq.
  - intros file Hne Hempty. rewrite (out_dir_content s1 d file Hd) in Hempty.
    destruct (d !! file) as [[b|]|] eqn:Hfile; [|done..]. injection Hempty as ->.
    assert (file ∈ names) as Hin.
    { apply sorted_elem_of, elem_of_listing.
      rewrite lookup_insert_ne by done. rewrite Hfile. eauto. }
    destruct (sections_split names texts file Hin Htlen)
      as (i & t & pre & post & Hi & Ht & Heq & Hpost).
    assert (t = "") as ->.
    { destruct (Forall2_lookup_lr _ _ _ _ _ _ Htexts Hi Ht Hne) as (b & Hb & Hdec).
      rewrite Hfile in Hb. injection Hb as <-. vm_compute in Hdec. congruence. }
    exists pre, post. split; [|done]. rewrite Heq. unfold text_section.
    by rewrite append_nil_r.
  - intros Hfail.
    change (stages sh) with
      ([stage1 sh; stage2 sh; stage3 sh; stage4 sh; stage5 sh; stage6 sh; stage7 sh;
        stage8 sh] ++ [stage9 sh]) in Hrun.
    rewrite run_stages_snoc in Hrun. unfold bind in Hrun.
    pose proof stages_safe as Hsafe.
    change (stages sh) with
      ([stage1 sh; stage2 sh; stage3 sh; stage4 sh; stage5 sh; stage6 sh; stage7 sh;
        stage8 sh] ++ [stage9 sh]) in Hsafe.
    apply Forall_app in Hsafe as [Hsafe _].
    destruct (run_stages_safe _ Hsafe s0 Hd0) as [Hd8 Hok8].
    destruct (run_stages _ s0) as [[[]|e] s8]; simpl in Hd8, Hok8; [|discriminate Hok8].
    eapply stage9_empty; [exact Hd8| |exact Hrun]. intros o. apply Hfail.
Qed.

End Pipeline.

Lemma sh_fail_tidy : sh_tidy sh_fail.
Proof. intros cmd o Ho. split; [exact Ho|]. by eexists. Qed.

Lemma pipeline_fail_soft_witness :
  exists s1 s',
    recon sh_fail st_fresh = (Ok tt, s1) /\
    report DEFAULT_BUFFER_SIZE s1 = (Ok tt, s') /\
    file_content (OUTPUT, "nuclei.txt") (st_os s1) = Some "".
Proof.
  destruct (pipeline_fail_soft sh_fail DEFAULT_BUFFER_SIZE sh_fail_tidy st_fresh)
    as (s1 & s' & segs & text & H1 & H2 & _ & _ & _ & _ & _ & H3).
  - right. split; reflexivity.
  - exists s1, s'. split; [exact H1|]. split; [exact H2|].
    apply H3. intros o. split; [discriminate|reflexivity].
Defined.

(** Every tool fails: the run still ends with both reports, and the text
    report is a list of headers with nothing under them. *)
Example all_tools_fail :
  let '(r, s') := (recon sh_fail ;; report DEFAULT_BUFFER_SIZE) st_fresh in
  r = Ok tt /\
  file_content (OUTPUT, "report.txt") (st_os s') =
    Some (String.concat ""
            (section_header <$>
               ["alive.txt"; "js.txt"; "nuclei.txt"; "params.txt"; "params1.txt";
                "ports.txt"; "report.txt"; "resolved.txt"; "sub1.txt"; "sub2.txt";
                "sub3.txt"; "subdomains.txt"; "tech.txt"; "urls.txt"; "urls1.txt";
                "urls2.txt"; "urls3.txt"])).
Proof. vm_compute. split; reflexivity. Qed.

(** One tool prints a byte that is not UTF-8: the pipeline stops in the
    first stage, whatever the exit status of the tool, and no report is
    built. *)
Example binary_tool_aborts :
  let '(r, s') := (recon sh_binary ;; report DEFAULT_BUFFER_SIZE) st_fresh in
  r = Raise UnicodeDecodeError /\
  prints (st_log s') = [banner "[1/10] Subdomain Discovery"] /\
  file_content (OUTPUT, "report.txt") (st_os s') = None.
Proof. vm_compute. done. Qed.

(** Both checks fail and both installs fail: each entry is checked and
    installed in turn, and [check_tools] returns. *)
Example bootstrap_goes_on :
  let '(r, s') := check_tools sh_fail "/root/go/bin" data_demo st_fresh in
  r = Ok tt /\
  calls (st_log s') =
    [ "command -v jq"; "apt install -y jq";
      "command -v httpx || test -x /root/go/bin/httpx >/dev/null 2>&1";
      "go install httpx" ].
Proof. vm_compute. split; reflexivity. Qed.

(** * Further properties of the task pool *)

Section PoolMore.

Variable sh : string -> OS -> Proc * OS.

Lemma execs_app l1 l2 : execs (l1 ++ l2) = execs l1 ++ execs l2.
Proof. unfold execs. apply omap_app. Qed.

Lemma execs_finished (fin : list Finished) :
  Forall finished_ok fin -> execs (concat fin.*2) = task_cmd <$> fin.*1.*1.
Proof.
  induction 1 as [|[[t fut] evs] fin Hx _ IH]; [done|].
  rewrite !fmap_cons. cbn [fst snd concat]. rewrite execs_app, IH.
  destruct Hx as [(d & _ & ->)|(e & _ & ->)]; [|done].
  unfold task_events, run_events. by destruct (task_outfile t).
Qed.

Lemma run_parallel_unfold (tasks : list Task) (workers : Z) s
    (fin : list Finished) s1 :
  (1 <= workers)%Z ->
  executor_run sh (Z.to_nat workers) (length tasks) tasks s = (Ok (fin.*1.*2), s1) ->
  run_parallel sh tasks workers s =
  (match first_exn fin.*1.*2 with
   | Some e => Raise e
   | None => Ok (returned fin.*1.*2)
   end, s1).
Proof.
  intros Hw Hrun. unfold run_parallel. destruct (workers <=? 0)%Z eqn:E; [lia|].
  unfold bind. by rewrite Hrun, collect_spec.
Qed.

(** X6. With at least one worker, every run of [run_parallel], whether
    it returns or raises, has run the command of every submitted task
    exactly once: the commands given to [subprocess.run] are the tasks'
    commands up to order. *)
Theorem run_parallel_runs_each_once (tasks : list Task) (workers : Z) (s : State) :
  (1 <= workers)%Z ->
  exists new,
    st_log (run_parallel sh tasks workers s).2 = st_log s ++ new /\
    execs new ≡ₚ task_cmd <$> tasks.
Proof.
  intros Hw.
  destruct (executor_run_trace sh (Z.to_nat workers) (length tasks) tasks s)
    as (ran & fin & s0 & s1 & _ & Hrun & _ & _ & _ & Hperm & Hok & Hlog); [lia|done|].
  rewrite (run_parallel_unfold tasks workers s fin s1 Hw Hrun).
  exists (concat ran.*2). split; [done|].
  by rewrite (execs_finished ran Hok), Hperm.
Qed.

Lemma pool_run_serial fuel : forall (pending : list Task) s,
  (length pending <= fuel)%nat ->
  exists (ran : list Finished) s',
    pool_run sh 1 fuel pending s = (Ok (ran.*1.*2), s') /\
    ran.*1.*1 = pending /\
    Forall finished_ok ran /\
    st_log s' = st_log s ++ concat (ran.*2).
Proof.
  induction fuel as [|fuel IH]; intros pending s Hlen.
  - destruct pending; [|simpl in Hlen; lia].
    exists [], s. simpl. by rewrite app_nil_r.
  - destruct pending as [|[[name cmd] outfile] pending0].
    { exists [], s. simpl. by rewrite app_nil_r. }
    set (pending := (name, cmd, outfile) :: pending0) in *.
    destruct (choose_spec (Nat.min 1 (length pending)) s)
      as (i & tp & Hch & Hi); [simpl; lia|].
    assert (i = 0%nat) as -> by (simpl in Hi; lia).
    destruct (task_outcome sh name cmd outfile (mkState (st_os s) (st_log s) tp))
      as (fut & s1 & Htask & Hlog1 & Hname).
    destruct (IH pending0 s1) as (ran & s2 & Hrec & Hord & Hok & Hlog2).
    { simpl in Hlen. lia. }
    exists (((name, cmd, outfile), fut,
             match fut with Ok _ => run_events cmd outfile | Raise _ => [EvExec cmd] end)
            :: ran), s2.
    split; [|split; [|split]].
    + rewrite (pool_run_step sh 1 fuel pending s 0 tp name cmd outfile);
        [|done|done|done].
      rewrite Htask. change (delete 0%nat pending) with pending0. by rewrite Hrec.
    + rewrite !fmap_cons. simpl. by rewrite Hord.
    + constructor; [|done]. simpl. destruct fut as [[n d]|e].
      * left. exists d. by subst n.
      * right. eauto.
    + rewrite Hlog2, Hlog1. simpl. by rewrite <- app_assoc.
Qed.

(** X3. One worker serialises the pool, whatever the tape says: in every
    run the commands are run in submission order; and in a run that returns,
    the log shows the tasks one after the other in that order, each command
    followed by the closing of its capture file.  (The order of the results
    is another matter: see [one_worker_yield_order].) *)
Theorem run_parallel_one_worker (tasks : list Task) (s : State) :
  exists new,
    st_log (run_parallel sh tasks 1 s).2 = st_log s ++ new /\
    execs new = task_cmd <$> tasks /\
    forall results s', run_parallel sh tasks 1 s = (Ok results, s') ->
      new = flat_map task_events tasks.
Proof.
  destruct (pool_run_serial (length tasks) tasks s)
    as (ran & s1 & Hpool & Hord & Hok & Hlog); [done|].
  destruct (as_completed_spec ran s1) as (fin & tp & Has & Hfin).
  assert (executor_run sh (Z.to_nat 1) (length tasks) tasks s
          = (Ok fin.*1.*2, mkState (st_os s1) (st_log s1) tp)) as Hrun.
  { unfold executor_run, bind. change (Z.to_nat 1) with 1%nat. rewrite Hpool.
    apply (as_completed_fmap fst) in Has. by apply (as_completed_fmap snd) in Has. }
  rewrite (run_parallel_unfold tasks 1 s fin _ ltac:(lia) Hrun).
  exists (concat ran.*2). split; [done|].
  split; [by rewrite (execs_finished ran Hok), Hord|].
  intros results s' Hret.
  destruct (first_exn fin.*1.*2) eqn:Hnone; [discriminate Hret|].
  rewrite <- Hord. apply finished_all_ok; [done|].
  apply first_exn_None. rewrite <- Hfin. by apply first_exn_None.
Qed.

Lemma pool_run_wide fuel : forall (w w' : nat) (pending : list Task) s,
  (length pending <= w)%nat -> (length pending <= w')%nat ->
  pool_run sh w fuel pending s = pool_run sh w' fuel pending s.
Proof.
  induction fuel as [|fuel IH]; intros w w' pending s Hw Hw'; [done|].
  destruct pending as [|t0 pending0]; [done|].
  rewrite !pool_run_S. set (pending := t0 :: pending0) in *.
  rewrite (Nat.min_r w) by done. rewrite (Nat.min_r w') by done.
  unfold bind at 1 4.
  destruct (choose (length pending) s) as [[i|e] s0]; [|done].
  destruct (pending !! i) as [[[name cmd] outfile]|] eqn:Hi; [|done].
  unfold bind at 1 3.
  destruct (attempt (task sh name cmd outfile) s0) as [[fut|e] s1]; [|done].
  unfold bind.
  rewrite (IH w w' (delete i pending) s1); [done| |].
  - rewrite length_delete by eauto. lia.
  - rewrite length_delete by eauto. lia.
Qed.

(** X4. Workers beyond the number of tasks change nothing: two worker
    counts that are both at least the number of tasks (and at least one)
    give the same run, result and final state alike. *)
Theorem run_parallel_spare_workers (tasks : list Task) (workers workers' : Z)
    (s : State) :
  (1 <= workers)%Z -> (1 <= workers')%Z ->
  (Z.of_nat (length tasks) <= workers)%Z ->
  (Z.of_nat (length tasks) <= workers')%Z ->
  run_parallel sh tasks workers s = run_parallel sh tasks workers' s.
Proof.
  intros H1 H1' Hw Hw'. unfold run_parallel.
  destruct (workers <=? 0)%Z eqn:E; [lia|].
  destruct (workers' <=? 0)%Z eqn:E'; [lia|].
  unfold executor_run, bind.
  rewrite (pool_run_wide (length tasks) (Z.to_nat workers) (Z.to_nat workers')
             tasks s); [done|lia|lia].
Qed.

Lemma write_file_time p data s :
  time (st_os (write_file p data s).2) = time (st_os s).
Proof.
  destruct (open_w_outcome p s) as [(s1 & Hopen & _ & _ & Htime & _)|[e He]].
  - unfold write_file, bind. rewrite Hopen. unfold attempt, bind, encode.
    destruct (utf8_valid data); unfold ret, raise, get_os, put_os, emit; simpl.
    + rewrite <- Htime. unfold flush_to. by destruct (fs (st_os s1) !! p.1).
    + done.
  - by rewrite (write_file_raise p data s e He).
Qed.

(** When [run] returns, the clock shows the time at which the command
    ended. *)
Lemma run_time cmd outfile s txt s' :
  run sh cmd outfile s = (Ok txt, s') ->
  time (st_os s') = time (sh cmd (st_os s)).2.
Proof.
  unfold run, bind.
  destruct (subprocess_run_outcome sh cmd s) as [(text & _ & _ & ->)|(e & o & ->)];
    [|done].
  destruct outfile as [p|].
  - pose proof (write_file_time p (stdout (sh cmd (st_os s)).1)
                  (mkState (sh cmd (st_os s)).2 (st_log s ++ [EvExec cmd]) (st_tape s)))
      as Ht.
    destruct (write_file p _ _) as [[[]|e] s1]; [|done].
    unfold ret. intros H. injection H as _ <-. exact Ht.
  - unfold ret. intros H. by injection H as _ <-.
Qed.

(** The duration a task reports is the time its command took. *)
Lemma task_duration name cmd outfile s n d s' :
  task sh name cmd outfile s = (Ok (n, d), s') ->
  d = (time (sh cmd (st_os s)).2 - time (st_os s))%Z.
Proof.
  unfold task, bind, time_time, ret.
  destruct (run sh cmd outfile s) as [[txt|e] s1] eqn:Hrun; [|done].
  intros H. injection H as _ <- _. by rewrite (run_time _ _ _ _ _ Hrun).
Qed.

Lemma pool_run_durations w fuel : forall (pending : list Task) s futures s',
  sh_monotone sh ->
  pool_run sh w fuel pending s = (Ok futures, s') ->
  Forall nonneg_future futures.
Proof.
  induction fuel as [|fuel IH]; intros pending s futures s' Hmono Hrun.
  { simpl in Hrun. injection Hrun as <- _. constructor. }
  destruct pending as [|t0 pending0].
  { simpl in Hrun. injection Hrun as <- _. constructor. }
  rewrite pool_run_S in Hrun. unfold bind at 1 in Hrun.
  destruct (choose _ s) as [[i|e] s0] eqn:Hch; [|discriminate Hrun].
  assert (st_os s0 = st_os s) as Hos.
  { unfold choose in Hch. destruct (st_tape s); by injection Hch as _ <-. }
  destruct ((t0 :: pending0) !! i) as [[[name cmd] outfile]|].
  2:{ injection Hrun as <- _. constructor. }
  unfold bind, attempt, ret in Hrun.
  destruct (task sh name cmd outfile s0) as [fut s1] eqn:Htask.
  destruct (pool_run sh w fuel _ s1) as [[rest|e] s2] eqn:Hrest;
    [|discriminate Hrun].
  injection Hrun as <- _. constructor; [|by eapply IH].
  destruct fut as [[n d]|e]; [|done]. simpl.
  rewrite (task_duration name cmd outfile s0 n d s1 Htask).
  specialize (Hmono cmd (st_os s0)). lia.
Qed.

(** X5. When the clock never goes back during a command, every duration
    that [run_parallel] returns is non-negative. *)
Theorem run_parallel_durations (tasks : list Task) (workers : Z) (s s' : State)
    (results : list (string * Z)) :
  sh_monotone sh ->
  run_parallel sh tasks workers s = (Ok results, s') ->
  Forall (fun r => (0 <= r.2)%Z) results.
Proof.
  intros Hmono Hret. unfold run_parallel in Hret.
  destruct (workers <=? 0)%Z; [discriminate Hret|].
  unfold executor_run, bind in Hret.
  destruct (pool_run sh _ _ tasks s) as [[ran|e] s0] eqn:Hpool;
    [|discriminate Hret].
  pose proof (pool_run_durations _ _ _ _ _ _ Hmono Hpool) as Hnn.
  destruct (as_completed_spec ran s0) as (futures & tp & Has & Hperm).
  rewrite Has, collect_spec in Hret. rewrite <- Hperm in Hnn.
  destruct (first_exn futures); [discriminate Hret|]. injection Hret as <- _.
  clear -Hnn. induction Hnn as [|[[n d]|e] futures Hx _ IH]; simpl.
  - constructor.
  - unfold returned. simpl. constructor; [done|]. apply IH.
  - apply IH.
Qed.

End PoolMore.

Lemma sh_echo_monotone : sh_monotone sh_echo.
Proof.
  intros cmd o. unfold sh_echo. destruct (String.prefix "echo " cmd); simpl; lia.
Qed.

Lemma echo_tasks_returns :
  run_parallel sh_echo echo_tasks 2 (mkState os_demo [] [1; 1; 0])
  = (Ok [("B", 1%Z); ("C", 1%Z); ("A", 1%Z)],
     (run_parallel sh_echo echo_tasks 2 (mkState os_demo [] [1; 1; 0])).2).
Proof. vm_compute. reflexivity. Qed.

Lemma run_parallel_runs_each_once_witness :
  exists new,
    st_log (run_parallel sh_echo stray_tasks 2 (mkState os_demo [] [1])).2 = [] ++ new /\
    execs new ≡ₚ task_cmd <$> stray_tasks.
Proof.
  apply (run_parallel_runs_each_once sh_echo stray_tasks 2 (mkState os_demo [] [1])).
  lia.
Defined.

Lemma run_parallel_spare_workers_witness :
  run_parallel sh_echo echo_tasks 3 (mkState os_demo [] [2; 0])
  = run_parallel sh_echo echo_tasks 16 (mkState os_demo [] [2; 0]).
Proof.
  apply (run_parallel_spare_workers sh_echo echo_tasks 3 16 (mkState os_demo [] [2; 0]));
    simpl; lia.
Defined.

Lemma run_parallel_durations_witness :
  Forall (fun r : string * Z => (0 <= r.2)%Z) [("B", 1%Z); ("C", 1%Z); ("A", 1%Z)].
Proof.
  apply (run_parallel_durations sh_echo echo_tasks 2 (mkState os_demo [] [1; 1; 0]) _ _
           sh_echo_monotone echo_tasks_returns).
Defined.

(** * Further properties of the pipeline and of the report *)

Section PipelineMore.

Variable sh : string -> OS -> Proc * OS.
Variable bufsize : nat.

(** X10. Without the artifact directory [report] raises as soon as it
    has printed its banner, and no file is created or changed:
    [NotADirectoryError] when a regular file named [output] stands in the
    working directory, [FileNotFoundError] when nothing does. *)
Theorem report_without_dir (s : State) :
  dir_entries OUTPUT (st_os s) = None ->
  exists e s',
    report bufsize s = (Raise e, s') /\
    st_os s' = st_os s /\
    st_log s' = st_log s ++ [EvPrint (banner "[10/10] Report Generation")] /\
    e = match file_content (".", OUTPUT) (st_os s) with
        | Some _ => NotADirectoryError (OUTPUT, "report.txt")
        | None => FileNotFoundError (OUTPUT, "report.txt")
        end.
Proof.
  intros Hd. unfold report, bind, print, emit, report_txt, bind, open_w.
  simpl. rewrite Hd. eexists _, _. split; [reflexivity|]. split; [done|].
  split; [done|]. unfold no_dir_error, file_content. simpl.
  by destruct (fs (st_os s) !! "." ≫= _) as [[b|]|].
Qed.

(** X11. The HTML report, for a clean store: [report] completes and the
    report is the fixed head, one item per listed name and the fixed tail.
    The names are in increasing order without repetition, they are
    [report.txt] and the files of the store, and every item carries its
    file's text as it is read (nothing is escaped): what the stored bytes
    decode to for a file of the store, and for [report.txt] what the new
    text report decodes to. *)
Theorem report_html_items (s : State) (d : gmap string Node) :
  out_dir s = Some d -> clean d ->
  exists files (text : string -> string),
    (report bufsize s).1 = Ok tt /\
    file_content (OUTPUT, "report.html") (st_os (report bufsize s).2)
      = Some (html_head
              +:+ String.concat "" ((fun n => html_section n (text n)) <$> files)
              +:+ html_tail) /\
    StronglySorted String.le files /\ NoDup files /\
    (forall n, n ∈ files <-> n = "report.txt" \/ is_Some (d !! n)) /\
    (forall n, n <> "report.txt" -> n ∈ files ->
       exists bytes, d !! n = Some (File bytes) /\ decode_text bytes = Some (text n)) /\
    (exists bytes,
       file_content (OUTPUT, "report.txt") (st_os (report bufsize s).2) = Some bytes /\
       decode_text bytes = Some (text "report.txt")).
Proof.
  intros Hd Hclean.
  destruct (report_spec bufsize s d Hd Hclean)
    as (s' & texts & content & Hrun & Hlen & Hall & Hcontent & Hout & _).
  set (names := sorted (map_to_list (<["report.txt" := File ""]> d)).*1) in *.
  set (R := String.concat "" (zip_with text_section names texts)) in *.
  set (d1 := <["report.txt" := File R]> d) in *.
  set (files := sorted (map_to_list d1).*1) in *.
  exists files, (fun n => default "" (content !! n)). rewrite Hrun. simpl.
  split; [done|].
  rewrite !(out_dir_content s' _ _ Hout), lookup_insert_eq.
  rewrite lookup_insert_ne by done.
  assert (forall n, n ∈ files <-> n = "report.txt" \/ is_Some (d !! n)) as Hfiles.
  { intros n. unfold files. rewrite sorted_elem_of, elem_of_listing. unfold d1.
    destruct (decide (n = "report.txt")) as [->|Hne].
    - rewrite lookup_insert_eq. split; [by left|eauto].
    - rewrite lookup_insert_ne by done. split; [by right|]. by intros [?|?]. }
  split; [|split; [|split; [|split; [done|split]]]].
  - reflexivity.
  - apply StronglySorted_merge_sort; apply _.
  - unfold files, sorted. rewrite merge_sort_Permutation.
    apply NoDup_fst_map_to_list.
  - intros n Hne Hin. destruct (Hcontent n Hin) as (b & t & Hb & Hdec & Ht).
    unfold d1 in Hb. rewrite lookup_insert_ne in Hb by done.
    exists b. by rewrite Ht.
  - assert ("report.txt" ∈ files) as Hin by (apply Hfiles; by left).
    destruct (Hcontent _ Hin) as (b & t & Hb & Hdec & Ht).
    unfold d1 in Hb |- *. rewrite lookup_insert_eq in Hb |- *. injection Hb as <-.
    exists R. by rewrite Ht.
Qed.

(** X13. Whatever happens, every file [recon] itself writes lies in
    the artifact directory. *)
Theorem recon_writes_inside (s : State) :
  exists new,
    st_log (recon sh s).2 = st_log s ++ new /\
    forall p, EvWrite p ∈ new -> p.1 = OUTPUT.
Proof.
  assert (Forall (fun k => Forall writes_inside (stage_alphabet k)) (seq 0 10)) as Hchk
    by (apply (bool_decide_unpack _); vm_compute; exact I).
  rewrite recon_run_stages. unfold bind.
  pose proof (makedirs_log OUTPUT s) as Hmk.
  destruct (makedirs OUTPUT s) as [[[]|e] s0]; simpl in Hmk.
  - destruct (run_stages_chain (stages sh) 1 s0) as (segs & Hlen & Hlog & Hsub & _).
    { intros i m Hi. by apply (stage_emits sh). }
    exists (concat segs). rewrite Hlog, Hmk. split; [done|].
    intros p Hp. apply list_elem_of_In, in_concat in Hp as (seg & Hseg & Hp).
    apply list_elem_of_In, list_elem_of_lookup in Hseg as [i Hi].
    apply list_elem_of_In in Hp. apply (Hsub i seg Hi) in Hp.
    assert (i < 9)%nat as Hi9.
    { apply lookup_lt_Some in Hi. simpl in Hlen. lia. }
    rewrite Forall_forall in Hchk.
    assert ((1 + i)%nat ∈ seq 0 10) as Hk by (apply elem_of_seq; lia).
    specialize (Hchk _ Hk). rewrite Forall_forall in Hchk.
    exact (Hchk _ Hp).
  - exists []. rewrite app_nil_r. split; [done|]. intros p Hp.
    by apply elem_of_nil in Hp.
Qed.

Lemma stage8_rest_emits :
  emits (run_parallel sh param_tasks default_workers ;;
         run sh ("cat " +:+ OUTPUT +:+ "/params*.txt | sort -u") (out "params.txt") ;;
         ret tt)
        stage8_rest_alphabet (fun _ => True).
Proof.
  eapply emits_weaken.
  - eapply emits_bind; [by apply emits_run_parallel|intros _].
    eapply emits_bind; [apply emits_run|intros _].
    apply emits_silent. done.
  - unfold stage8_rest_alphabet. by rewrite app_nil_r.
  - done.
Qed.

(** X9. Stage 8 fetches ParamSpider exactly when it is missing: the
    [git clone] command is run if and only if no file or directory named
    [ParamSpider] exists when the stage starts. *)
Theorem stage8_clones_when_absent (s : State) :
  exists new,
    st_log (stage8 sh s).2 = st_log s ++ new /\
    (EvExec git_clone_cmd ∈ new <-> (path_exists "ParamSpider" s).1 = Ok false).
Proof.
  assert (EvExec git_clone_cmd ∉ stage8_rest_alphabet) as Hnot
    by (apply (bool_decide_unpack _); vm_compute; exact I).
  unfold stage8. unfold bind at 1. unfold print, emit.
  set (s0 := mkState (st_os s) _ (st_tape s)).
  unfold bind at 1. unfold path_exists at 1. simpl.
  set (present := bool_decide _ || bool_decide _).
  destruct present eqn:Hp; simpl.
  - unfold bind at 1. unfold ret at 1.
    destruct (stage8_rest_emits s0) as (seg & Hlog & Hsub & _).
    eexists. split.
    + rewrite Hlog. unfold s0. simpl. rewrite <- app_assoc. reflexivity.
    + split; [|done]. intros Hin. apply elem_of_app in Hin as [Hin|Hin].
      * apply list_elem_of_singleton in Hin. discriminate Hin.
      * by apply Hsub in Hin.
  - unfold bind at 1. unfold bind at 1.
    change "git clone https://github.com/devanshbatham/ParamSpider.git"
      with git_clone_cmd.
    destruct (run_outcome sh git_clone_cmd None s0)
      as [(txt & s1 & -> & Hl1)|(e & s1 & -> & Hl1)].
    + unfold ret at 1.
      destruct (stage8_rest_emits s1) as (seg & Hlog & Hsub & _).
      eexists. split.
      * rewrite Hlog, Hl1. unfold s0. simpl. rewrite <- !app_assoc. reflexivity.
      * split; [done|]. intros _. simpl. right. by left.
    + exists [EvPrint (banner "[8/10] Parameter Mining"); EvExec git_clone_cmd].
      split.
      * simpl. rewrite Hl1. unfold s0. simpl. by rewrite <- app_assoc.
      * split; [done|]. intros _. right. by left.
Qed.

End PipelineMore.

Section BootstrapMore.

Variable sh : string -> OS -> Proc * OS.
Variable GO_BIN : string.

Lemma bootstrap_all_present es : forall o c o',
  Forall (fun e : string * string => forall o, returncode (sh e.1 o).1 = 0%Z) es ->
  bootstrap sh es o c o' -> c = es.*1.
Proof.
  induction es as [|[chk inst] es IH]; intros o c o' Hall Hb.
  - by inversion Hb.
  - apply Forall_cons in Hall as [Hchk Hall]. inversion Hb as [|? ? ? ? c1 o1 c2 ? Hstep Hrest].
    subst. simpl in Hchk. rewrite fmap_cons. simpl.
    inversion Hstep as [? p ? Hsh Hrc|? p ? q ? Hsh Hrc Hinst]; subst.
    + simpl. f_equal. by eapply IH.
    + specialize (Hchk o). rewrite Hsh in Hchk. simpl in Hchk. done.
Qed.

(** X12. When the presence check of every entry succeeds, [check_tools]
    installs nothing: the commands it calls are the checks of the entries,
    one each and in order, the system dependencies before the tools. *)
Theorem check_tools_all_present (data : ToolsYaml) (s : State) :
  Forall (fun e : string * string => forall o, returncode (sh e.1 o).1 = 0%Z)
         (entries GO_BIN data) ->
  exists s' new,
    check_tools sh GO_BIN data s = (Ok tt, s') /\
    st_log s' = st_log s ++ new /\
    calls new = (entries GO_BIN data).*1.
Proof.
  intros Hall. unfold check_tools, bind.
  destruct (for_ensures sh dep_entry (check_dep sh)
              (default [] (system_dependencies data)) (check_dep_ensures sh) s)
    as (s1 & new1 & H1 & Hl1 & Hb1).
  destruct (for_ensures sh (tool_entry GO_BIN) (check_tool sh GO_BIN)
              (tools data) (check_tool_ensures sh GO_BIN) s1)
    as (s2 & new2 & H2 & Hl2 & Hb2).
  exists s2, (new1 ++ new2). rewrite H1, H2. split; [done|].
  split; [by rewrite Hl2, Hl1, app_assoc|].
  rewrite calls_app. apply (bootstrap_all_present _ (st_os s) _ (st_os s2) Hall).
  by eapply bootstrap_app.
Qed.

End BootstrapMore.

(** * The capture files of a pool *)

Section Captures.

Variable sh : string -> OS -> Proc * OS.
Variable out : string -> string.
Hypothesis Hprints : sh_prints sh out.

Lemma file_content_fs p o o' : fs o = fs o' -> file_content p o = file_content p o'.
Proof. unfold file_content. by intros ->. Qed.

Lemma open_w_dir p s s0 :
  open_w p s = (Ok tt, s0) ->
  exists d, fs (st_os s0) !! p.1 = Some (<[p.2 := File ""]> d).
Proof.
  unfold open_w. destruct (dir_entries p.1 (st_os s)) as [d|]; [|done].
  destruct (d !! p.2) as [[b|]|]; [|done|];
    (intros H; injection H as <-; exists d; simpl; by rewrite lookup_insert_eq).
Qed.

Lemma write_file_content p data s s' :
  write_file p data s = (Ok tt, s') -> file_content p (st_os s') = Some data.
Proof.
  unfold write_file, bind.
  destruct (open_w p s) as [[[]|e] s0] eqn:Hopen; [|done].
  destruct (open_w_dir p s s0 Hopen) as [d Hs0].
  unfold attempt, bind, encode.
  destruct (utf8_valid data); unfold ret, raise, get_os, put_os, emit, flush_to;
    simpl; [|discriminate].
  rewrite Hs0. intros H. injection H as <-. unfold file_content. simpl.
  rewrite lookup_insert_eq. simpl. by rewrite !lookup_insert_eq.
Qed.

(** What a call of [run] that returns has done to the files. *)
Lemma run_captures cmd outfile s txt s1 :
  run sh cmd outfile s = (Ok txt, s1) ->
  (forall p, outfile = Some p -> file_content p (st_os s1) = Some (out cmd)) /\
  (forall q, outfile <> Some q -> file_content q (st_os s1) = file_content q (st_os s)).
Proof.
  destruct (Hprints cmd (st_os s)) as [Hout Hfs].
  destruct (subprocess_run_outcome sh cmd s) as [(text & Hnul & Hdec & Hrun)|(e & o & Hrun)].
  2:{ unfold run, bind. by rewrite Hrun. }
  rewrite (stdout_decoded _ text Hdec) in Hout. subst text.
  unfold run, bind. rewrite Hrun, (stdout_decoded _ _ Hdec).
  set (s0 := mkState (sh cmd (st_os s)).2 (st_log s ++ [EvExec cmd]) (st_tape s)).
  destruct outfile as [p|].
  - pose proof (touch_write_file p (out cmd) [p]
                  ltac:(by apply list_elem_of_singleton) s0) as Hframe.
    destruct (write_file p (out cmd) s0) as [[[]|e] s'] eqn:Hw; [|done].
    simpl in Hframe. unfold ret. intros H. injection H as _ <-. split.
    + intros p' Hp. injection Hp as <-. by apply (write_file_content _ _ _ _ Hw).
    + intros q Hq. rewrite (Hframe q); [by apply file_content_fs|].
      rewrite list_elem_of_singleton. congruence.
  - unfold ret. intros H. injection H as _ <-. simpl.
    split; [discriminate|]. intros q _. by apply file_content_fs.
Qed.

Lemma task_captures name cmd outfile s r s1 :
  task sh name cmd outfile s = (Ok r, s1) ->
  (forall p, outfile = Some p -> file_content p (st_os s1) = Some (out cmd)) /\
  (forall q, outfile <> Some q -> file_content q (st_os s1) = file_content q (st_os s)).
Proof.
  unfold task, bind, time_time, ret.
  destruct (run sh cmd outfile s) as [[txt|e] s'] eqn:Hrun; [|done].
  intros H. injection H as _ <-. by eapply run_captures.
Qed.

Lemma pool_run_captures w fuel : forall (pending : list Task) s futures s',
  (0 < w)%nat -> (length pending <= fuel)%nat ->
  NoDup (omap task_outfile pending) ->
  pool_run sh w fuel pending s = (Ok futures, s') ->
  first_exn futures = None ->
  (forall name cmd p, (name, cmd, Some p) ∈ pending ->
     file_content p (st_os s') = Some (out cmd)) /\
  (forall q, q ∉ omap task_outfile pending ->
     file_content q (st_os s') = file_content q (st_os s)).
Proof.
  induction fuel as [|fuel IH]; intros pending s futures s' Hw Hlen Hnd Hrun Hnone.
  { destruct pending; [|simpl in Hlen; lia]. simpl in Hrun. injection Hrun as _ <-.
    split; [|done]. intros name cmd p Hin. by apply elem_of_nil in Hin. }
  destruct pending as [|t0 pending0].
  { simpl in Hrun. injection Hrun as _ <-.
    split; [|done]. intros name cmd p Hin. by apply elem_of_nil in Hin. }
  set (pending := t0 :: pending0) in *.
  destruct (choose_spec (Nat.min w (length pending)) s)
    as (i & tp & Hch & Hi); [simpl; lia|].
  destruct (lookup_lt_is_Some_2 pending i) as [[[name cmd] outfile] Ht]; [lia|].
  rewrite (pool_run_step sh w fuel pending s i tp name cmd outfile) in Hrun;
    [|done|done|done].
  destruct (task sh name cmd outfile _) as [fut s1] eqn:Htask.
  destruct (pool_run sh w fuel (delete i pending) s1) as [[rest|e] s2] eqn:Hrest;
    [|discriminate Hrun].
  injection Hrun as <- <-. destruct fut as [r|e]; [|discriminate Hnone].
  simpl in Hnone.
  destruct (task_captures name cmd outfile _ r s1 Htask) as [Hcap Hframe].
  simpl in Hframe.
  pose proof (delete_Permutation pending i _ Ht) as Hperm.
  assert (omap task_outfile pending
          ≡ₚ omap task_outfile ((name, cmd, outfile) :: delete i pending)) as Hperm'
    by (by rewrite <- Hperm).
  rewrite Hperm' in Hnd.
  assert (NoDup (omap task_outfile (delete i pending)) /\
          forall p, outfile = Some p -> p ∉ omap task_outfile (delete i pending))
    as [Hnd' Hfresh].
  { simpl in Hnd. unfold task_outfile at 1 in Hnd. simpl in Hnd.
    destruct outfile as [p|].
    - apply NoDup_cons in Hnd as [? ?]. split; [done|]. by intros ? [= <-].
    - split; [done|discriminate]. }
  destruct (IH (delete i pending) s1 rest s2 Hw) as [Hin Hout]; [|done..|].
  { rewrite length_delete by eauto. simpl in Hlen |- *. lia. }
  split.
  - intros name' cmd' p' Hin'. rewrite Hperm in Hin'.
    apply elem_of_cons in Hin' as [Heq|Hin'].
    + injection Heq as -> -> <-.
      rewrite (Hout p' (Hfresh p' eq_refl)). by apply Hcap.
    + by eapply Hin.
  - intros q Hq. rewrite Hperm' in Hq. simpl in Hq.
    unfold task_outfile at 1 in Hq. simpl in Hq.
    rewrite Hout, Hframe; [done| |].
    + intros ->. apply Hq. by left.
    + intros Hq'. apply Hq. destruct outfile; [by right|done].
Qed.

(** X14. The capture files of a pool.  Let the commands only print: a
    command's output does not depend on the state of the system and no
    command touches a file.  Then, with at least one worker and tasks that
    capture into distinct files, after a run of [run_parallel] that returns
    every capture file holds exactly the output of its own task's command,
    whatever the completion order, and every other file is unchanged. *)
Theorem run_parallel_captures (tasks : list Task) (workers : Z) (s s' : State)
    (results : list (string * Z)) :
  (1 <= workers)%Z ->
  NoDup (omap task_outfile tasks) ->
  run_parallel sh tasks workers s = (Ok results, s') ->
  (forall name cmd p, (name, cmd, Some p) ∈ tasks ->
     file_content p (st_os s') = Some (out cmd)) /\
  (forall q, q ∉ omap task_outfile tasks ->
     file_content q (st_os s') = file_content q (st_os s)).
Proof.
  intros Hw Hnd Hret. unfold run_parallel in Hret.
  destruct (workers <=? 0)%Z eqn:E; [lia|]. unfold executor_run, bind in Hret.
  destruct (pool_run sh _ _ tasks s) as [[ran|e] s0] eqn:Hpool;
    [|discriminate Hret].
  destruct (as_completed_spec ran s0) as (futures & tp & Has & Hperm).
  rewrite Has, collect_spec in Hret.
  destruct (first_exn futures) eqn:Hnone; [discriminate Hret|].
  injection Hret as _ <-. simpl.
  eapply (pool_run_captures (Z.to_nat workers) (length tasks)); eauto; [lia|].
  apply first_exn_None. rewrite <- Hperm. by apply first_exn_None.
Qed.

End Captures.

Lemma sh_echo_prints : sh_prints sh_echo echo_out.
Proof.
  intros cmd o. unfold sh_echo, echo_out.
  by destruct (String.prefix "echo " cmd).
Qed.

Lemma echo_tasks_distinct : NoDup (omap task_outfile echo_tasks).
Proof. apply (bool_decide_unpack _). vm_compute. exact I. Qed.

Lemma run_parallel_captures_witness :
  file_content ("output", "B.txt")
    (st_os (run_parallel sh_echo echo_tasks 2 (mkState os_demo [] [1; 1; 0])).2)
  = Some (echo_out "echo 2").
Proof.
  destruct (run_parallel_captures sh_echo echo_out sh_echo_prints echo_tasks 2
              (mkState os_demo [] [1; 1; 0]) _ _ ltac:(lia) echo_tasks_distinct
              echo_tasks_returns) as [Hin _].
  apply (Hin "B" "echo 2" ("output", "B.txt")).
  right. left.
Defined.

Lemma report_without_dir_witness :
  exists e s',
    report DEFAULT_BUFFER_SIZE st_blocked = (Raise e, s') /\
    st_os s' = st_os st_blocked /\
    st_log s' = st_log st_blocked ++ [EvPrint (banner "[10/10] Report Generation")] /\
    e = NotADirectoryError (OUTPUT, "report.txt").
Proof.
  apply (report_without_dir DEFAULT_BUFFER_SIZE st_blocked). reflexivity.
Defined.

(** In an empty working directory it is [FileNotFoundError]. *)
Example report_in_fresh_dir :
  (report DEFAULT_BUFFER_SIZE st_fresh).1
  = Raise (FileNotFoundError (OUTPUT, "report.txt")).
Proof. reflexivity. Qed.

Lemma report_html_items_witness :
  exists files (text : string -> string),
    file_content (OUTPUT, "report.html") (st_os (report DEFAULT_BUFFER_SIZE st_ab).2)
      = Some (html_head
              +:+ String.concat "" ((fun n => html_section n (text n)) <$> files)
              +:+ html_tail) /\
    StronglySorted String.le files.
Proof.
  destruct (report_html_items DEFAULT_BUFFER_SIZE st_ab _ st_ab_out_dir clean_ab)
    as (files & text & _ & H1 & H2 & _).
  exists files, text. split; [exact H1|exact H2].
Defined.

Lemma check_tools_all_present_witness :
  exists s' new,
    check_tools sh_ok "/root/go/bin" data_demo st_fresh = (Ok tt, s') /\
    st_log s' = st_log st_fresh ++ new /\
    calls new = (entries "/root/go/bin" data_demo).*1.
Proof.
  apply (check_tools_all_present sh_ok "/root/go/bin" data_demo st_fresh).
  apply Forall_forall. intros e _ o. reflexivity.
Defined.

(** * The bootstrap's feedback and the entry point *)

Section Main.

Variable sh : string -> OS -> Proc * OS.
Variable GO_BIN : string.
Variable bufsize : nat.

Lemma prints_app l1 l2 : prints (l1 ++ l2) = prints l1 ++ prints l2.
Proof. unfold prints. apply omap_app. Qed.

Lemma body_reports_once chk inst msg1 msg2 :
  reports_once
    (rc <- subprocess_call sh chk ;;
     if negb (rc =? 0)%Z then
       print msg1 ;; subprocess_call sh inst ;; ret tt
     else print msg2).
Proof.
  intros s. unfold bind, subprocess_call, print, emit, ret.
  destruct (sh chk (st_os s)) as [p o1].
  destruct (returncode p =? 0)%Z; simpl.
  - eexists _, [EvCall chk; EvPrint msg2]. simpl. split; [done|].
    split; [by rewrite <- app_assoc|]. split; [|done]. by repeat constructor.
  - destruct (sh inst o1) as [q o2].
    eexists _, [EvCall chk; EvPrint msg1; EvCall inst]. split; [done|]. simpl.
    split; [by rewrite <- !app_assoc|]. split; [|done]. by repeat constructor.
Qed.

Lemma for_reports_once {A} (body : A -> M unit) xs :
  (forall x, reports_once (body x)) ->
  forall s, exists s' new,
    for_ xs body s = (Ok tt, s') /\ st_log s' = st_log s ++ new /\
    Forall call_or_print new /\ length (prints new) = length xs.
Proof.
  intros Hbody. induction xs as [|x xs IH]; intros s; simpl.
  - exists s, []. rewrite app_nil_r. done.
  - destruct (Hbody x s) as (s1 & new1 & Hx & Hl1 & Hc1 & Hp1).
    destruct (IH s1) as (s2 & new2 & Hxs & Hl2 & Hc2 & Hp2).
    exists s2, (new1 ++ new2). unfold bind. rewrite Hx, Hxs.
    split; [done|]. split; [by rewrite Hl2, Hl1, app_assoc|].
    split; [by apply Forall_app|].
    by rewrite prints_app, length_app, Hp1, Hp2.
Qed.

Lemma check_tools_log (data : ToolsYaml) (s : State) :
  exists s' new,
    check_tools sh GO_BIN data s = (Ok tt, s') /\
    st_log s' = st_log s ++ new /\
    Forall call_or_print new /\
    length (prints new) = length (entries GO_BIN data).
Proof.
  unfold check_tools, bind.
  destruct (for_reports_once (check_dep sh)
              (default [] (system_dependencies data))
              (fun dep => body_reports_once _ _ _ _) s)
    as (s1 & new1 & H1 & Hl1 & Hc1 & Hp1).
  destruct (for_reports_once (check_tool sh GO_BIN) (tools data)
              (fun tool => body_reports_once _ _ _ _) s1)
    as (s2 & new2 & H2 & Hl2 & Hc2 & Hp2).
  exists s2, (new1 ++ new2). rewrite H1, H2. split; [done|].
  split; [by rewrite Hl2, Hl1, app_assoc|]. split; [by apply Forall_app|].
  unfold entries. by rewrite prints_app, !length_app, !length_fmap, Hp1, Hp2.
Qed.

(** X15. [check_tools] always returns, gives exactly one line of feedback
    per entry of [tools.yaml], and does nothing but call commands and print:
    it never captures output and never writes a file. *)
Theorem check_tools_feedback (data : ToolsYaml) (s : State) :
  exists new,
    (check_tools sh GO_BIN data s).1 = Ok tt /\
    st_log (check_tools sh GO_BIN data s).2 = st_log s ++ new /\
    Forall call_or_print new /\
    length (prints new) = length (entries GO_BIN data).
Proof.
  destruct (check_tools_log data s) as (s' & new & Hrun & Hlog & Hc & Hp).
  exists new. by rewrite Hrun.
Qed.

Lemma recon_no_report (s : State) :
  exists new,
    st_log (recon sh s).2 = st_log s ++ new /\ Forall not_a_report new.
Proof.
  assert (Forall (fun k => Forall not_a_report (stage_alphabet k)) (seq 0 10)) as Hchk
    by (apply (bool_decide_unpack _); vm_compute; exact I).
  rewrite recon_run_stages. unfold bind.
  pose proof (makedirs_log OUTPUT s) as Hmk.
  destruct (makedirs OUTPUT s) as [[[]|e] s0]; simpl in Hmk.
  - destruct (run_stages_chain (stages sh) 1 s0) as (segs & Hlen & Hlog & Hsub & _).
    { intros i m Hi. by apply (stage_emits sh). }
    exists (concat segs). rewrite Hlog, Hmk. split; [done|].
    apply Forall_forall. intros ev Hev.
    apply list_elem_of_In, in_concat in Hev as (seg & Hseg & Hev).
    apply list_elem_of_In, list_elem_of_lookup in Hseg as [i Hi].
    apply list_elem_of_In in Hev. apply (Hsub i seg Hi) in Hev.
    assert (i < 9)%nat as Hi9.
    { apply lookup_lt_Some in Hi. simpl in Hlen. lia. }
    rewrite Forall_forall in Hchk.
    assert ((1 + i)%nat ∈ seq 0 10) as Hk by (apply elem_of_seq; lia).
    specialize (Hchk _ Hk). rewrite Forall_forall in Hchk.
    exact (Hchk _ Hev).
  - exists []. rewrite app_nil_r. split; [done|constructor].
Qed.

(** X16. The entry point stops at the first exception of [recon]: when
    [recon], run after the bootstrap, raises, [main] raises the same
    exception and ends in the state [recon] left, so [report] has not run,
    and nothing in the log since the start is a write of either report. *)
Theorem main_stops_on_recon_error (data : ToolsYaml) (s s2 : State) (e : exn) :
  recon sh (check_tools sh GO_BIN data s).2 = (Raise e, s2) ->
  main sh GO_BIN bufsize data s = (Raise e, s2) /\
  exists new, st_log s2 = st_log s ++ new /\ Forall not_a_report new.
Proof.
  intros Hrecon.
  destruct (check_tools_log data s) as (s1 & new1 & Hrun & Hlog1 & Hc & _).
  rewrite Hrun in Hrecon. simpl in Hrecon.
  split.
  - unfold main, bind. by rewrite Hrun, Hrecon.
  - destruct (recon_no_report s1) as (new2 & Hlog2 & Hnr).
    rewrite Hrecon in Hlog2. simpl in Hlog2.
    exists (new1 ++ new2). split; [by rewrite Hlog2, Hlog1, app_assoc|].
    apply Forall_app. split; [|done].
    eapply Forall_impl; [exact Hc|]. intros ev Hev.
    destruct ev; simpl in Hev; try done; split; discriminate.
Qed.

End Main.

Lemma main_stops_on_recon_error_witness :
  main sh_ok "/root/go/bin" DEFAULT_BUFFER_SIZE data_demo st_blocked
  = (Raise (FileExistsError "output"),
     (recon sh_ok (check_tools sh_ok "/root/go/bin" data_demo st_blocked).2).2).
Proof.
  apply (main_stops_on_recon_error sh_ok "/root/go/bin" DEFAULT_BUFFER_SIZE data_demo
           st_blocked).
  vm_compute. reflexivity.
Defined.
